(** * markdown-it-paged: the marker line parser and the scope transform

    A shallow embedding of [src/index.js].  JavaScript strings are modelled
    as [string], read as sequences of code units in the range U+0000..U+00FF;
    the mutable closure variables of [layout_transform] become the fields of
    a record that every helper takes and returns; a [TypeError] raised by a
    property read on [undefined] is an explicit outcome. *)

From Stdlib Require Import String Ascii List ZArith Bool Lia Permutation.
Import ListNotations.
Open Scope string_scope.
Open Scope Z_scope.

(** ** JavaScript string primitives *)

Module JsString.

Definition dquote : ascii := ascii_of_nat 34.
Definition squote : ascii := ascii_of_nat 39.

(** The one-character strings that open a quoted span. *)
Definition DQ : string := String dquote "".
Definition SQ : string := String squote "".

(** [/\s/.test(ch)], and the characters [trim] strips: TAB, LF, VT, FF, CR,
    SPACE and NBSP are the white space and line terminators below U+0100. *)
Definition is_space (ch : ascii) : bool :=
  let n := nat_of_ascii ch in
  (((9 <=? n) && (n <=? 13)) || (n =? 32) || (n =? 160))%nat.

(** [s.length === 0], the falsy string. *)
Definition is_empty (s : string) : bool :=
  match s with EmptyString => true | String _ _ => false end.

(** Truthiness of a string value. *)
Definition truthy (s : string) : bool := negb (is_empty s).

(** [buf += ch] *)
Definition push_char (buf : string) (ch : ascii) : string :=
  buf ++ String ch "".

Fixpoint trimStart (s : string) : string :=
  match s with
  | EmptyString => EmptyString
  | String ch rest => if is_space ch then trimStart rest else s
  end.

Fixpoint trimEnd (s : string) : string :=
  match s with
  | EmptyString => EmptyString
  | String ch rest =>
      let r := trimEnd rest in
      if is_space ch && is_empty r then EmptyString else String ch r
  end.

(** [s.trim()] *)
Definition trim (s : string) : string := trimEnd (trimStart s).

(** [s.startsWith(c)] for a one-character [c]. *)
Definition startsWith (s : string) (c : ascii) : bool :=
  match s with
  | EmptyString => false
  | String ch _ => Ascii.eqb ch c
  end.

(** [s.slice(n)] for [0 <= n]. *)
Fixpoint slice_from (n : nat) (s : string) : string :=
  match n, s with
  | O, _ => s
  | S _, EmptyString => EmptyString
  | S k, String _ rest => slice_from k rest
  end.

(** [s.slice(0, n)] for [0 <= n]. *)
Fixpoint slice_to (n : nat) (s : string) : string :=
  match n, s with
  | O, _ => EmptyString
  | S _, EmptyString => EmptyString
  | S k, String ch rest => String ch (slice_to k rest)
  end.

(** [s.indexOf(c)]: the first position of [c], or [-1]. *)
Fixpoint indexOf (s : string) (c : ascii) : Z :=
  match s with
  | EmptyString => -1
  | String ch rest =>
      if Ascii.eqb ch c then 0
      else let i := indexOf rest c in if i <? 0 then -1 else i + 1
  end.

(** [s.includes(c)] *)
Definition includes (s : string) (c : ascii) : bool := 0 <=? indexOf s c.

(** [arr.join(' ')] *)
Fixpoint join_space (l : list string) : string :=
  match l with
  | [] => ""
  | [x] => x
  | x :: rest => x ++ " " ++ join_space rest
  end.

(** A separator of [/[,\s]+/]. *)
Definition is_class_sep (ch : ascii) : bool :=
  Ascii.eqb ch "," || is_space ch.

(** [val.split(/[,\s]+/)]: the pieces between the maximal runs of
    separators; a leading or a trailing run leaves an empty piece, and the
    empty string splits into one empty piece. *)
Fixpoint split_runs (s : string) (cur : string) (acc : list string)
         (in_sep : bool) : list string :=
  match s with
  | EmptyString => acc ++ [cur]
  | String ch rest =>
      if is_class_sep ch then
        if in_sep then split_runs rest cur acc true
        else split_runs rest "" (acc ++ [cur]) true
      else split_runs rest (push_char cur ch) acc false
  end.

Definition split_classes (val : string) : list string :=
  split_runs val "" [] false.

(** [.filter(Boolean)] on an array of strings. *)
Definition filter_truthy (l : list string) : list string :=
  filter truthy l.

End JsString.
Import JsString.

(** ** Plain objects used as string-keyed maps *)

Module JsObject.

(** An object literal [{}] with string values: the own properties in the
    order of their creation. *)
Definition obj := list (string * string).

(** [o[key]], [None] for [undefined]. *)
Fixpoint get (o : obj) (key : string) : option string :=
  match o with
  | [] => None
  | (k, v) :: rest => if String.eqb k key then Some v else get rest key
  end.

Fixpoint replace_or_append (o : obj) (key val : string) : obj :=
  match o with
  | [] => [(key, val)]
  | (k, v) :: rest =>
      if String.eqb k key then (k, val) :: rest
      else (k, v) :: replace_or_append rest key val
  end.

(** [o[key] = val] for a string [val].  An existing property keeps its
    place, a new one is created last.  The key [__proto__] reaches the
    accessor inherited from [Object.prototype], which ignores a value that
    is neither an object nor [null]: no own property is created. *)
Definition set (o : obj) (key val : string) : obj :=
  if String.eqb key "__proto__" then o else replace_or_append o key val.

(** Truthiness of [o[key]]: defined and not the empty string. *)
Definition get_truthy (o : obj) (key : string) : option string :=
  match get o key with
  | Some v => if truthy v then Some v else None
  | None => None
  end.

End JsObject.

(** ** Markers *)

(** The record [{ kind, name, attrs }] returned by [parseMarkerLine], with
    the [__line] field [markerBlock] adds.  [kind] is optional because
    [openPage] also receives the literal [{ name, attrs, __line }]. *)
Record Meta : Type := mkMeta {
  kind : option string;
  name : option string;
  attrs : JsObject.obj;
  __line : option Z
}.

(** How a call ends: with a value, or with the [TypeError] of a property read
    on [undefined]. *)
Inductive completion (A : Type) : Type :=
| Normal (a : A)
| TypeError.
Arguments Normal {A} a.
Arguments TypeError {A}.

Module Parser.

(** The tokenizer loop of [parseMarkerLine], lines 34-55: the state is the
    array [tokens], the buffer [buf] and the open quote, [None] for
    [null]. *)
Fixpoint scan (s : string) (tokens : list string) (buf : string)
         (quote : option ascii) : list string * string :=
  match s with
  | EmptyString => (tokens, buf)
  | String ch rest =>
      match quote with
      | Some q =>
          if Ascii.eqb ch q then scan rest tokens buf None
          else scan rest tokens (push_char buf ch) quote
      | None =>
          if Ascii.eqb ch dquote || Ascii.eqb ch squote
          then scan rest tokens buf (Some ch)
          else if is_space ch
          then scan rest (if truthy buf then (tokens ++ [buf])%list else tokens)
                    "" None
          else scan rest tokens (push_char buf ch) None
      end
  end.

(** Lines 30-57: the loop, then the flush of the last buffer. *)
Definition tokenize (trimmed : string) : list string :=
  let '(tokens, buf) := scan trimmed [] "" None in
  if truthy buf then (tokens ++ [buf])%list else tokens.

Definition kinds : list string := ["spread"; "page"; "section"; "break"].

(** [kinds.includes(kind)] *)
Definition is_kind (k : string) : bool :=
  existsb (String.eqb k) kinds.

(** The condition of lines 72-77 on the second token. *)
Definition is_name_token (t : string) : bool :=
  truthy t && negb (includes t "=") && negb (startsWith t ".")
  && negb (startsWith t "#").

(** One round of the loop of lines 85-117 on the pair of [attrs] and
    [classes]. *)
Definition attr_step (st : JsObject.obj * list string) (t : string)
  : JsObject.obj * list string :=
  let '(attrs, classes) := st in
  if startsWith t "." then
    let c := trim (slice_from 1 t) in
    if truthy c then (attrs, (classes ++ [c])%list) else st
  else if startsWith t "#" then
    let id := trim (slice_from 1 t) in
    if truthy id then (JsObject.set attrs "id" id, classes) else st
  else
    let eq := indexOf t "=" in
    if 0 <? eq then
      let key := trim (slice_to (Z.to_nat eq) t) in
      let val := trim (slice_from (Z.to_nat (eq + 1)) t) in
      if is_empty key then st
      else if String.eqb key "class"
      then (attrs, (classes ++ filter_truthy (split_classes val))%list)
      else (JsObject.set attrs key val, classes)
    else st.

Definition attr_loop (tokens : list string)
  : JsObject.obj * list string :=
  fold_left attr_step tokens ([], []).

(** Line 119. *)
Definition finish_attrs (st : JsObject.obj * list string) : JsObject.obj :=
  let '(attrs, classes) := st in
  match classes with
  | [] => attrs
  | _ => JsObject.set attrs "class" (join_space classes)
  end.

Definition parseMarkerLine (line : string) : completion (option Meta) :=
  let trimmed := trim line in
  if negb (startsWith trimmed "@") then Normal None
  else
    match tokenize trimmed with
    | [] => TypeError
    | head :: rest =>
        let kind := slice_from 1 head in
        if negb (is_kind kind) then Normal None
        else if String.eqb kind "break"
        then Normal (Some (mkMeta (Some kind) None [] None))
        else
          let '(name, rest') :=
            match rest with
            | t :: rest' =>
                if is_name_token t then (Some t, rest') else (None, rest)
            | [] => (None, rest)
            end in
          Normal (Some (mkMeta (Some kind) name
                               (finish_attrs (attr_loop rest')) None))
    end.

End Parser.

(** ** Tokens of the host parser *)

Module Token.

(** The fields of markdown-it's [Token] that the plugin reads or writes.
    [attrs] is [None] for [null], the value the constructor leaves. *)
Record t : Type := mk {
  type : string;
  tag : string;
  nesting : Z;
  attrs : option (list (string * string));
  content : string;
  meta : option Meta
}.

(** [new state.Token(type, tag, nesting)] *)
Definition new (type tag : string) (nesting : Z) : t :=
  mk type tag nesting None "" None.

Fixpoint replace_first (l : list (string * string)) (name value : string)
  : option (list (string * string)) :=
  match l with
  | [] => None
  | (n, v) :: rest =>
      if String.eqb n name then Some ((name, value) :: rest)
      else option_map (cons (n, v)) (replace_first rest name value)
  end.

(** [token.attrSet(name, value)]: the first attribute called [name] is
    overwritten where it stands, otherwise the pair is pushed. *)
Definition attrSet (tok : t) (name value : string) : t :=
  let l := match attrs tok with Some l => l | None => [] end in
  let l' := match replace_first l name value with
            | Some l' => l'
            | None => (l ++ [(name, value)])%list
            end in
  mk (type tok) (tag tok) (nesting tok) (Some l') (content tok) (meta tok).

End Token.

(** ** Diagnostics and the environment *)

Module Diag.

(** [{ line, type, message, marker }]; [marker] is [None] for [null]. *)
Record t : Type := mk {
  line : Z;
  type : string;
  message : string;
  marker : option Meta
}.

End Diag.

(** The fields of [env] the plugin touches; [layoutWarnings] is [None] while
    the property is absent. *)
Record Env : Type := mkEnv {
  __layoutMarkersUsed : bool;
  layoutWarnings : option (list Diag.t)
}.

(** Lines 124-125 for the object [d]: the array is created if the property
    is absent, then [d] is pushed. *)
Definition push_warning (env : Env) (d : Diag.t) : Env :=
  let ws := match layoutWarnings env with Some ws => ws | None => [] end in
  mkEnv (__layoutMarkersUsed env) (Some (ws ++ [d])%list).

(** [function warn(env, line, type, message, marker)] *)
Definition warn (env : Env) (line : Z) (type message : string)
           (marker : option Meta) : Env :=
  push_warning env (Diag.mk line type message marker).

(** The plugin options after the defaults are merged in. *)
Record Options : Type := mkOptions {
  implicitPage : bool;
  preferPagesInSpreads : bool;
  warnOnBreakWithoutScope : bool
}.

Definition default_options : Options := mkOptions true false true.

(** ** Attributes of the wrapper tokens *)

Module Attrs.

(** [function addClasses(token, baseClass, extraClass)] *)
Definition addClasses (token : Token.t) (baseClass extraClass : string)
  : Token.t :=
  let cls := ((if truthy baseClass then [baseClass] else [])
              ++ (if truthy extraClass then [extraClass] else []))%list in
  let merged := trim (join_space cls) in
  if truthy merged then Token.attrSet token "class" merged else token.

Definition is_digit (ch : ascii) : bool :=
  let n := nat_of_ascii ch in ((48 <=? n) && (n <=? 57))%nat.

Fixpoint digits_value (s : string) (acc : N) : option N :=
  match s with
  | EmptyString => Some acc
  | String ch rest =>
      if is_digit ch
      then digits_value rest (acc * 10 + N.of_nat (nat_of_ascii ch - 48))%N
      else None
  end.

(** A property key that is an array index: the canonical decimal form of
    an integer below [2^32 - 1]. *)
Definition array_index (key : string) : option N :=
  match key with
  | EmptyString => None
  | String ch rest =>
      if Ascii.eqb ch "0" && truthy rest then None
      else match digits_value key 0%N with
           | Some n => if (n <? 4294967295)%N then Some n else None
           | None => None
           end
  end.

Fixpoint insert_by_index (e : N * (string * string))
         (l : list (N * (string * string))) : list (N * (string * string)) :=
  match l with
  | [] => [e]
  | x :: rest =>
      if (fst e <? fst x)%N then e :: l else x :: insert_by_index e rest
  end.

Definition index_entries (o : JsObject.obj) : list (N * (string * string)) :=
  fold_right
    (fun kv acc => match array_index (fst kv) with
                   | Some n => insert_by_index (n, kv) acc
                   | None => acc
                   end) [] o.

(** [Object.entries(o)]: the array-index keys in ascending order, then the
    other keys in the order of their creation. *)
Definition entries (o : JsObject.obj) : list (string * string) :=
  (map snd (index_entries o)
   ++ filter (fun kv => match array_index (fst kv) with
                        | Some _ => false
                        | None => true
                        end) o)%list.

Definition set_if (token : Token.t) (attr : string) (v : option string)
  : Token.t :=
  match v with
  | Some v => Token.attrSet token attr v
  | None => token
  end.

(** One round of the loop of lines 147-151. *)
Definition data_step (token : Token.t) (kv : string * string) : Token.t :=
  let '(k, v) := kv in
  if is_empty v then token
  else if String.eqb k "class" || String.eqb k "id"
          || String.eqb k "template" || String.eqb k "region"
  then token
  else Token.attrSet token ("data-" ++ k) v.

(** [function attachDataAttrs(token, kind, name, attrs)] *)
Definition attachDataAttrs (token : Token.t) (kind : string)
           (name : option string) (attrs : JsObject.obj) : Token.t :=
  let token :=
    match name with
    | Some n =>
        if truthy n then
          let token := if String.eqb kind "spread"
                       then Token.attrSet token "data-spread" n else token in
          let token := if String.eqb kind "page"
                       then Token.attrSet token "data-page" n else token in
          if String.eqb kind "section"
          then Token.attrSet token "data-section" n else token
        else token
    | None => token
    end in
  let token := set_if token "data-template"
                      (JsObject.get_truthy attrs "template") in
  let token := set_if token "data-region"
                      (JsObject.get_truthy attrs "region") in
  let token := set_if token "id" (JsObject.get_truthy attrs "id") in
  fold_left data_step (entries attrs) token.

End Attrs.

(** ** The scope transform *)

Module Msg.

Definition page_outside_spread : string :=
  "@page used outside of a spread; allowed, but spreads are recommended for deliberate grouping.".
Definition nested_spread : string :=
  "@spread encountered while another spread is open; closing the previous spread automatically.".
Definition implicit_page : string :=
  "@section used without an open @page; creating an implicit page wrapper (data-page="
  ++ DQ ++ "auto" ++ DQ ++ ").".
Definition section_without_page : string :=
  "@section used without an open @page; region will render but will not be wrapped in a page.".
Definition spread_without_pages : string :=
  "@section inside a spread without an explicit @page. Allowed (adhoc spread), but explicit @page markers give stronger control.".
Definition break_without_scope : string :=
  "@break used but no spread/page/section is open. It will still force a page break.".
Definition spread_eof_close : string :=
  "An open @spread reached end-of-document; closing it automatically. If this was meant to be adhoc, consider adding @break to return to default flow.".

End Msg.

(** The variables the closures of [layout_transform] share, with
    [state.env]. *)
Record Scope : Type := mkScope {
  out : list Token.t;
  spreadOpen : bool;
  pageOpen : bool;
  sectionOpen : bool;
  spreadStartedWithNoPagesYet : bool;
  sawAnyPageInsideCurrentSpread : bool;
  env : Env
}.

Definition push_out (sc : Scope) (tok : Token.t) : Scope :=
  mkScope (out sc ++ [tok]) (spreadOpen sc) (pageOpen sc) (sectionOpen sc)
          (spreadStartedWithNoPagesYet sc) (sawAnyPageInsideCurrentSpread sc)
          (env sc).

Definition with_env (sc : Scope) (e : Env) : Scope :=
  mkScope (out sc) (spreadOpen sc) (pageOpen sc) (sectionOpen sc)
          (spreadStartedWithNoPagesYet sc) (sawAnyPageInsideCurrentSpread sc)
          e.

(** [warn(state.env, ...)] *)
Definition warn_sc (sc : Scope) (line : Z) (type message : string)
           (marker : option Meta) : Scope :=
  with_env sc (warn (env sc) line type message marker).

Definition closeSection (sc : Scope) : Scope :=
  if negb (sectionOpen sc) then sc
  else
    let sc := push_out sc (Token.new "layout_section_close" "div" (-1)) in
    mkScope (out sc) (spreadOpen sc) (pageOpen sc) false
            (spreadStartedWithNoPagesYet sc)
            (sawAnyPageInsideCurrentSpread sc) (env sc).

Definition closePage (sc : Scope) : Scope :=
  if negb (pageOpen sc) then sc
  else
    let sc := closeSection sc in
    let sc := push_out sc (Token.new "layout_page_close" "div" (-1)) in
    mkScope (out sc) (spreadOpen sc) false (sectionOpen sc)
            (spreadStartedWithNoPagesYet sc)
            (sawAnyPageInsideCurrentSpread sc) (env sc).

Definition closeSpread (sc : Scope) : Scope :=
  if negb (spreadOpen sc) then sc
  else
    let sc := closePage sc in
    let sc := push_out sc (Token.new "layout_spread_close" "div" (-1)) in
    mkScope (out sc) false (pageOpen sc) (sectionOpen sc) false false (env sc).

(** [meta.attrs && meta.attrs.class ? meta.attrs.class : ''] *)
Definition class_of (meta : Meta) : string :=
  match JsObject.get_truthy (attrs meta) "class" with
  | Some c => c
  | None => ""
  end.

(** The wrapper token the three [open] helpers build. *)
Definition wrapper_open (type base kind : string) (meta : Meta) : Token.t :=
  let t := Token.new type "div" 1 in
  let t := Attrs.addClasses t base (class_of meta) in
  Attrs.attachDataAttrs t kind (name meta) (attrs meta).

Definition openSpread (sc : Scope) (meta : Meta) : Scope :=
  let sc := push_out sc (wrapper_open "layout_spread_open" "spread" "spread" meta) in
  mkScope (out sc) true (pageOpen sc) (sectionOpen sc) true false (env sc).

(** [meta.__line || 0] *)
Definition line_of (meta : Meta) : Z :=
  match __line meta with
  | Some n => n
  | None => 0
  end.

Definition openPage (options : Options) (sc : Scope) (meta : Meta) : Scope :=
  let sc := push_out sc (wrapper_open "layout_page_open" "page" "page" meta) in
  let sc := mkScope (out sc) (spreadOpen sc) true (sectionOpen sc)
                    (spreadStartedWithNoPagesYet sc)
                    (sawAnyPageInsideCurrentSpread sc) (env sc) in
  if spreadOpen sc then
    mkScope (out sc) (spreadOpen sc) (pageOpen sc) (sectionOpen sc)
            false true (env sc)
  else if preferPagesInSpreads options then
    warn_sc sc (line_of meta) "page_outside_spread" Msg.page_outside_spread
            (Some meta)
  else sc.

Definition openSection (sc : Scope) (meta : Meta) : Scope :=
  let sc := push_out sc (wrapper_open "layout_section_open" "region" "section" meta) in
  mkScope (out sc) (spreadOpen sc) (pageOpen sc) true
          (spreadStartedWithNoPagesYet sc)
          (sawAnyPageInsideCurrentSpread sc) (env sc).

(** The break token of lines 314-317. *)
Definition break_token : Token.t :=
  let b := Token.new "layout_break" "div" 0 in
  let b := Token.attrSet b "class" "md-break" in
  Token.attrSet b "aria-hidden" "true".

(** [tok.meta || {}] *)
Definition empty_meta : Meta := mkMeta None None [] None.

Definition on_spread (sc : Scope) (meta : Meta) : Scope :=
  let line := line_of meta in
  let sc := if spreadOpen sc
            then warn_sc sc line "nested_spread" Msg.nested_spread (Some meta)
            else sc in
  openSpread (closeSpread sc) meta.

Definition on_page (options : Options) (sc : Scope) (meta : Meta) : Scope :=
  openPage options (closePage sc) meta.

Definition on_section (options : Options) (sc : Scope) (meta : Meta)
  : Scope :=
  let line := line_of meta in
  let sc := closeSection sc in
  let sc :=
    if negb (pageOpen sc) then
      if implicitPage options then
        let sc := warn_sc sc line "implicit_page" Msg.implicit_page
                          (Some meta) in
        openPage options sc (mkMeta None (Some "auto") [] (Some line))
      else
        warn_sc sc line "section_without_page" Msg.section_without_page
                (Some meta)
    else sc in
  let sc :=
    if spreadOpen sc && spreadStartedWithNoPagesYet sc
    then warn_sc sc line "spread_without_pages" Msg.spread_without_pages
                 (Some meta)
    else sc in
  openSection sc meta.

Definition on_break (options : Options) (sc : Scope) (meta : Meta) : Scope :=
  let line := line_of meta in
  let sc :=
    if negb (sectionOpen sc) && negb (pageOpen sc) && negb (spreadOpen sc)
       && warnOnBreakWithoutScope options
    then warn_sc sc line "break_without_scope" Msg.break_without_scope
                 (Some meta)
    else sc in
  let sc :=
    if sectionOpen sc then closeSection sc
    else if pageOpen sc then closePage sc
    else if spreadOpen sc then closeSpread sc
    else sc in
  push_out sc break_token.

(** The body of the loop of lines 251-320 for one token. *)
Definition visit (options : Options) (sc : Scope) (tok : Token.t) : Scope :=
  if negb (String.eqb (Token.type tok) "layout_marker") then push_out sc tok
  else
    let meta := match Token.meta tok with
                | Some m => m
                | None => empty_meta
                end in
    match kind meta with
    | Some k =>
        if String.eqb k "spread" then on_spread sc meta
        else if String.eqb k "page" then on_page options sc meta
        else if String.eqb k "section" then on_section options sc meta
        else if String.eqb k "break" then on_break options sc meta
        else sc
    | None => sc
    end.

Definition initial_scope (e : Env) : Scope :=
  mkScope [] false false false false false e.

(** Lines 322-332: the warning for a spread left open, then [closeSpread]. *)
Definition at_eof (sc : Scope) : Scope :=
  let sc :=
    if spreadOpen sc && negb (sawAnyPageInsideCurrentSpread sc)
    then warn_sc sc 0 "spread_eof_close" Msg.spread_eof_close None
    else sc in
  closeSpread sc.

(** The part of the core state the rule reads and writes. *)
Record CoreState : Type := mkCore {
  tokens : list Token.t;
  core_env : Env
}.

(** The core rule [layout_transform]. *)
Definition layout_transform (options : Options) (state : CoreState)
  : CoreState :=
  if negb (__layoutMarkersUsed (core_env state)) then state
  else
    let sc := fold_left (visit options) (tokens state)
                        (initial_scope (core_env state)) in
    let sc := at_eof sc in
    mkCore (out sc) (env sc).

(** ** The block rule *)

Module Block.

(** The fields of the block state [markerBlock] reads and writes. *)
Record State : Type := mkState {
  src : string;
  bMarks : list Z;
  tShift : list Z;
  eMarks : list Z;
  env : Env;
  tokens : list Token.t;
  line : Z
}.

(** An index of [String.prototype.slice] against a string of [len] code
    units: a negative index counts from the end. *)
Definition clamp (len i : Z) : Z :=
  if i <? 0 then Z.max (len + i) 0 else Z.min i len.

(** [s.slice(start, end)]; [None] stands for a start that is [NaN] and for
    an end that is [undefined], what the reads of the three arrays give
    past their ends. *)
Definition slice (s : string) (start end_ : option Z) : string :=
  let len := Z.of_nat (String.length s) in
  let from := match start with Some i => clamp len i | None => 0 end in
  let to := match end_ with Some i => clamp len i | None => len end in
  substring (Z.to_nat from) (Z.to_nat (to - from)) s.

(** Lines 163-165. *)
Definition line_text (state : State) (startLine : nat) : string :=
  let pos := match nth_error (bMarks state) startLine,
                   nth_error (tShift state) startLine with
             | Some b, Some t => Some (b + t)
             | _, _ => None
             end in
  slice (src state) pos (nth_error (eMarks state) startLine).

(** The token of lines 173-175: [state.push('layout_marker', '', 0)] with
    the parsed marker and its 1-based line as [meta]. *)
Definition marker_token (parsed : Meta) (startLine : nat) : Token.t :=
  Token.mk "layout_marker" "" 0 None ""
           (Some (mkMeta (kind parsed) (name parsed) (attrs parsed)
                         (Some (Z.of_nat startLine + 1)))).

(** [function markerBlock(state, startLine, endLine, silent)] *)
Definition markerBlock (state : State) (startLine endLine : nat)
           (silent : bool) : completion (bool * State) :=
  match Parser.parseMarkerLine (line_text state startLine) with
  | TypeError => TypeError
  | Normal None => Normal (false, state)
  | Normal (Some parsed) =>
      if silent then Normal (true, state)
      else
        Normal (true,
                mkState (src state) (bMarks state) (tShift state)
                        (eMarks state)
                        (mkEnv true (layoutWarnings (env state)))
                        (tokens state ++ [marker_token parsed startLine])
                        (Z.of_nat startLine + 1))
  end.

End Block.

(** ** Sample documents *)

Module Sample.

(** The token the block rule leaves for [text] found on line [startLine],
    nothing if the line is no marker. *)
Definition marker (text : string) (startLine : nat) : list Token.t :=
  match Parser.parseMarkerLine text with
  | Normal (Some parsed) => [Block.marker_token parsed startLine]
  | _ => []
  end.

(** A content token of the host. *)
Definition text (s : string) : list Token.t :=
  [Token.mk "inline" "" 0 None s None].

Definition fresh_env : Env := mkEnv true None.

Definition run (options : Options) (toks : list Token.t) : CoreState :=
  layout_transform options (mkCore toks fresh_env).

Definition types (state : CoreState) : list string :=
  map Token.type (tokens state).

Definition warning_types (state : CoreState) : option (list string) :=
  option_map (map Diag.type) (layoutWarnings (core_env state)).

End Sample.

Import Parser.

(** * Readings of the specification and sample inputs *)

(** Readings of the specification's words, to compare the parser with. *)
Module Reading.

(** The first token of the line, less its first character: the word the
    parser takes as the kind. *)
Definition first_word (trimmed : string) : string :=
  match tokenize trimmed with
  | head :: _ => slice_from 1 head
  | [] => ""
  end.

Fixpoint take_word (s : string) : string :=
  match s with
  | EmptyString => EmptyString
  | String ch rest => if is_space ch then EmptyString
                      else String ch (take_word rest)
  end.

Fixpoint drop_word (s : string) : string :=
  match s with
  | EmptyString => EmptyString
  | String ch rest => if is_space ch then s else drop_word rest
  end.

Fixpoint quote_free (s : string) : bool :=
  match s with
  | EmptyString => true
  | String ch rest =>
      negb (Ascii.eqb ch dquote || Ascii.eqb ch squote) && quote_free rest
  end.

(** The characters that follow the first one, up to the first white
    space. *)
Definition plain_first_word (trimmed : string) : string :=
  take_word (slice_from 1 trimmed).

(** A line that is no marker line: its trimmed text does not start with
    [@], or the word after [@] is none of the four kinds.  The word is the
    parser's first token; where it holds no quote character it is the plain
    run of characters up to the first white space. *)
Definition not_a_marker (line : string) : bool :=
  let trimmed := trim line in
  negb (startsWith trimmed "@")
  || negb (is_kind (first_word trimmed))
  || (quote_free (plain_first_word trimmed)
      && negb (is_kind (plain_first_word trimmed))).

(** The id of a marker if only [#] tokens set it, the last one winning. *)
Definition id_by_hash_only (tokens : list string) : option string :=
  fold_left
    (fun acc t =>
       if startsWith t "#" then
         let id := trim (slice_from 1 t) in
         if truthy id then Some id else acc
       else acc)
    tokens None.

(** The id an attribute token sets: a [#] token sets its non-empty suffix,
    a [key=value] token whose key is [id] sets its value. *)
Definition id_set_by (t : string) : option string :=
  if startsWith t "." then None
  else if startsWith t "#" then
    let id := trim (slice_from 1 t) in
    if truthy id then Some id else None
  else if (0 <? indexOf t "=")
          && String.eqb (trim (slice_to (Z.to_nat (indexOf t "=")) t)) "id"
  then Some (trim (slice_from (Z.to_nat (indexOf t "=" + 1)) t))
  else None.

(** The id of a marker when the last token that sets one wins. *)
Definition last_id (tokens : list string) : option string :=
  fold_left
    (fun acc t => match id_set_by t with Some v => Some v | None => acc end)
    tokens None.

(** A marker record as the parser builds them. *)
Definition well_formed (m : Meta) : Prop :=
  (exists k, kind m = Some k /\ In k kinds)
  /\ (kind m = Some "break" -> name m = None /\ attrs m = [])
  /\ (forall n, name m = Some n -> is_name_token n = true)
  /\ NoDup (map fst (attrs m))
  /\ __line m = None.

End Reading.

(** The claim C3 as it is stated: only [#] tokens set the id. *)
Definition id_only_from_hash (line : string) : Prop :=
  forall m, parseMarkerLine line = Normal (Some m) ->
            JsObject.get (attrs m) "id"
            = Reading.id_by_hash_only (tl (tokenize (trim line))).

(** The environment after the diagnostics [ds] are recorded in turn. *)
Definition record_all (e : Env) (ds : list Diag.t) : Env :=
  fold_left push_warning ds e.

(** A helper is uniform in the environment when, from scopes that differ
    in the environment only, it makes the same moves and records the same
    diagnostics. *)
Definition uniform (f : Scope -> Scope) : Prop :=
  forall sc ds, exists ds',
    forall e, f (with_env sc (record_all e ds))
              = with_env (f sc) (record_all e ds').

(** The claim C2 as it is stated: an absent collection stays absent. *)
Definition absent_stays_absent (options : Options) (toks : list Token.t)
  : Prop :=
  layoutWarnings
    (core_env (layout_transform options (mkCore toks (mkEnv true None))))
  = None.

(** Readings of the specification's words on the output. *)
Module Wrappers.

(** The close token of the nearest open scope, if any. *)
Definition nearest_close (sc : Scope) : list Token.t :=
  if sectionOpen sc then [Token.new "layout_section_close" "div" (-1)]
  else if pageOpen sc then [Token.new "layout_page_close" "div" (-1)]
  else if spreadOpen sc then [Token.new "layout_spread_close" "div" (-1)]
  else [].

(** The open flags, as (spread, page, section), once the nearest open
    scope is closed. *)
Definition after_close (sc : Scope) : bool * bool * bool :=
  if sectionOpen sc then (spreadOpen sc, pageOpen sc, false)
  else if pageOpen sc then (spreadOpen sc, false, false)
  else (false, false, false).

Definition open_flags (sc : Scope) : bool * bool * bool :=
  (spreadOpen sc, pageOpen sc, sectionOpen sc).

Definition is_open (k : string) (tok : Token.t) : bool :=
  String.eqb (Token.type tok) ("layout_" ++ k ++ "_open")%string.

Definition is_close (k : string) (tok : Token.t) : bool :=
  String.eqb (Token.type tok) ("layout_" ++ k ++ "_close")%string.

(** Every open of kind [k] has a close of its own later on, and every
    close an open before it: [depth] opens are pending. *)
Fixpoint balanced_from (k : string) (depth : nat) (toks : list Token.t)
  : bool :=
  match toks with
  | [] => Nat.eqb depth 0
  | tok :: rest =>
      if is_open k tok then balanced_from k (S depth) rest
      else if is_close k tok then
             match depth with
             | O => false
             | S d => balanced_from k d rest
             end
      else balanced_from k depth rest
  end.

Definition balanced (k : string) (toks : list Token.t) : bool :=
  balanced_from k 0 toks.

(** The depth of a wrapper kind: spread holds page holds section. *)
Definition rank (k : string) : nat :=
  if String.eqb k "spread" then 0
  else if String.eqb k "page" then 1 else 2.

Definition wrapper_kinds : list string := ["spread"; "page"; "section"].

Definition opened (tok : Token.t) : option string :=
  find (fun k => is_open k tok) wrapper_kinds.

Definition closed (tok : Token.t) : option string :=
  find (fun k => is_close k tok) wrapper_kinds.

(** No pair crosses another: an open goes inside the innermost pending
    wrapper and must be of a deeper kind, a close must be of the innermost
    pending wrapper.  [stack] holds the pending kinds, innermost first. *)
Fixpoint nested_from (stack : list string) (toks : list Token.t) : bool :=
  match toks with
  | [] => true
  | tok :: rest =>
      match opened tok, closed tok with
      | Some k, _ =>
          match stack with
          | top :: _ =>
              if Nat.ltb (rank top) (rank k)
              then nested_from (k :: stack) rest else false
          | [] => nested_from [k] rest
          end
      | None, Some k =>
          match stack with
          | top :: below =>
              if String.eqb top k then nested_from below rest else false
          | [] => false
          end
      | None, None => nested_from stack rest
      end
  end.

Definition nested (toks : list Token.t) : bool := nested_from [] toks.

End Wrappers.

(** A token the transform copies through. *)
Definition is_content (tok : Token.t) : bool :=
  negb (String.eqb (Token.type tok) "layout_marker").

Module ScenarioC.

(** What the marker token of [@section intro] on line [startLine + 1]
    carries. *)
Definition section_meta (startLine : nat) : Meta :=
  mkMeta (Some "section") (Some "intro") [] (Some (Z.of_nat startLine + 1)).

Definition page_open : Token.t :=
  Token.mk "layout_page_open" "div" 1
           (Some [("class", "page"); ("data-page", "auto")]) "" None.

Definition section_open : Token.t :=
  Token.mk "layout_section_open" "div" 1
           (Some [("class", "region"); ("data-section", "intro")]) "" None.

(** The record [openPage] receives for the implicit page. *)
Definition implicit_meta (startLine : nat) : Meta :=
  mkMeta None (Some "auto") [] (Some (Z.of_nat startLine + 1)).

Definition diagnostics (options : Options) (startLine : nat)
  : list Diag.t :=
  Diag.mk (Z.of_nat startLine + 1) "implicit_page" Msg.implicit_page
          (Some (section_meta startLine))
  :: (if preferPagesInSpreads options
      then [Diag.mk (Z.of_nat startLine + 1) "page_outside_spread"
                    Msg.page_outside_spread
                    (Some (implicit_meta startLine))]
      else []).

Definition count_type (type : string) (ds : list Diag.t) : nat :=
  List.length (filter (fun d => String.eqb (Diag.type d) type) ds).

End ScenarioC.

Module ScenarioD.

Definition input : list Token.t :=
  Sample.marker "@spread s" 0 ++ Sample.marker "@page p" 1
  ++ Sample.marker "@section a" 2 ++ Sample.text "A"
  ++ Sample.marker "@break" 4 ++ Sample.text "B"
  ++ Sample.marker "@break" 6 ++ Sample.text "C"
  ++ Sample.marker "@break" 8 ++ Sample.text "D".

End ScenarioD.

Module ScenarioSpreadSection.

(** [@spread s] then [@section a], no [@page]. *)
Definition input : list Token.t :=
  Sample.marker "@spread s" 0 ++ Sample.marker "@section a" 1.

(** The scope when the section marker is met. *)
Definition at_section (options : Options) : Scope :=
  fold_left (visit options) (Sample.marker "@spread s" 0)
            (initial_scope Sample.fresh_env).

Definition explicit_pages_off : Options := mkOptions false false true.

End ScenarioSpreadSection.

Module ScenarioOpenEnds.

(** A page outside any spread. *)
Definition lone_page : list Token.t := Sample.marker "@page p" 0.

(** The input of the repository's test of the implicit page. *)
Definition lone_section : list Token.t :=
  Sample.marker "@section intro" 0 ++ Sample.text "Hello".

(** A section opened with no page, then a page. *)
Definition section_then_page : list Token.t :=
  Sample.marker "@spread s" 0 ++ Sample.marker "@section a" 1
  ++ Sample.marker "@page p" 2.

Definition explicit_pages_off : Options := mkOptions false false true.

End ScenarioOpenEnds.

(** ** Readings used for the whole run *)

Module Output.

(** The types of the tokens the transform creates. *)
Definition inserted_types : list string :=
  ["layout_spread_open"; "layout_spread_close";
   "layout_page_open"; "layout_page_close";
   "layout_section_open"; "layout_section_close"; "layout_break"].

Definition inserted (tok : Token.t) : bool :=
  existsb (String.eqb (Token.type tok)) inserted_types.

(** A token of the host or of the block rule: none of the seven types. *)
Definition foreign (tok : Token.t) : bool := negb (inserted tok).

(** The pending opens of kind [k] after [toks], from [depth] pending ones;
    [None] once a close comes with nothing pending. *)
Fixpoint depth_after (k : string) (depth : nat) (toks : list Token.t)
  : option nat :=
  match toks with
  | [] => Some depth
  | tok :: rest =>
      if Wrappers.is_open k tok then depth_after k (S depth) rest
      else if Wrappers.is_close k tok then
             match depth with
             | O => None
             | S d => depth_after k d rest
             end
      else depth_after k depth rest
  end.

(** One pending open for a raised flag, none otherwise. *)
Definition pending (flag : bool) : option nat :=
  Some (if flag then 1%nat else 0%nat).

(** The flags say what is pending in the output: at most one wrapper of a
    kind is open, and no close came without its open. *)
Definition flags_track_output (sc : Scope) : Prop :=
  depth_after "spread" 0 (out sc) = pending (spreadOpen sc)
  /\ depth_after "page" 0 (out sc) = pending (pageOpen sc)
  /\ depth_after "section" 0 (out sc) = pending (sectionOpen sc).

(** The two notes on the current spread: both down while no spread is open,
    and one the negation of the other while one is. *)
Definition spread_notes_agree (sc : Scope) : Prop :=
  spreadStartedWithNoPagesYet sc
  = (spreadOpen sc && negb (sawAnyPageInsideCurrentSpread sc))%bool
  /\ (sawAnyPageInsideCurrentSpread sc = true -> spreadOpen sc = true).

(** The diagnostic types a run may record under [options]. *)
Definition allowed_types (options : Options) : list string :=
  (["nested_spread"; "spread_without_pages"; "spread_eof_close"]
   ++ (if implicitPage options then ["implicit_page"]
       else ["section_without_page"])
   ++ (if preferPagesInSpreads options then ["page_outside_spread"] else [])
   ++ (if warnOnBreakWithoutScope options then ["break_without_scope"]
       else []))%list.

Definition allowed (options : Options) (d : Diag.t) : bool :=
  existsb (String.eqb (Diag.type d)) (allowed_types options).

(** The scope after the loop over [toks], before the end of the document. *)
Definition after_loop (options : Options) (toks : list Token.t) (e : Env)
  : Scope :=
  fold_left (visit options) toks (initial_scope e).

(** The close tokens a [@page] marker starts with: the open section, then
    the open page. *)
Definition page_cascade (sc : Scope) : list Token.t :=
  if pageOpen sc then
    (if sectionOpen sc then [Token.new "layout_section_close" "div" (-1)]
     else [])
    ++ [Token.new "layout_page_close" "div" (-1)]
  else [].

(** The close tokens a [@spread] marker starts with: the cascade of the
    page, then the open spread. *)
Definition spread_cascade (sc : Scope) : list Token.t :=
  if spreadOpen sc then
    page_cascade sc ++ [Token.new "layout_spread_close" "div" (-1)]
  else [].

(** The tokens a [@section] marker puts before its own open token: the
    close of the open section, and the implicit page if no page is open. *)
Definition section_lead (options : Options) (sc : Scope) (line : Z)
  : list Token.t :=
  (if sectionOpen sc then [Token.new "layout_section_close" "div" (-1)]
   else [])
  ++ (if negb (pageOpen sc) && implicitPage options
      then [wrapper_open "layout_page_open" "page" "page"
                         (mkMeta None (Some "auto") [] (Some line))]
      else []).

(** The tokens of type [type]. *)
Definition created (type : string) (toks : list Token.t) : nat :=
  List.length (filter (fun tok => String.eqb (Token.type tok) type) toks).

(** The marker tokens of kind [k]. *)
Definition is_marker_of (k : string) (tok : Token.t) : bool :=
  String.eqb (Token.type tok) "layout_marker"
  && match Token.meta tok with
     | Some m => match kind m with
                 | Some k' => String.eqb k' k
                 | None => false
                 end
     | None => false
     end.

Definition marked (k : string) (toks : list Token.t) : nat :=
  List.length (filter (is_marker_of k) toks).

(** The created type that answers a marker kind: its open token, or the
    break token. *)
Definition answers : list (string * string) :=
  [("layout_break", "break"); ("layout_spread_open", "spread");
   ("layout_section_open", "section")].

(** The diagnostics an environment holds, none if it has no collection. *)
Definition diagnostics_of (e : Env) : list Diag.t :=
  match layoutWarnings e with
  | Some ds => ds
  | None => []
  end.

(** The [implicit_page] diagnostics among [ds]. *)
Definition implicit_pages (ds : list Diag.t) : nat :=
  List.length
    (filter (fun d => String.eqb (Diag.type d) "implicit_page") ds).

(** The section branch up to the call of [openSection]. *)
Definition section_prelude (options : Options) (sc : Scope) (meta : Meta)
  : Scope :=
  let line := line_of meta in
  let sc := closeSection sc in
  let sc :=
    if negb (pageOpen sc) then
      if implicitPage options then
        let sc := warn_sc sc line "implicit_page" Msg.implicit_page
                          (Some meta) in
        openPage options sc (mkMeta None (Some "auto") [] (Some line))
      else
        warn_sc sc line "section_without_page" Msg.section_without_page
                (Some meta)
    else sc in
  if spreadOpen sc && spreadStartedWithNoPagesYet sc
  then warn_sc sc line "spread_without_pages" Msg.spread_without_pages
               (Some meta)
  else sc.

(** From [a] to [b] the output grew by tokens that satisfy [P]. *)
Definition appends (P : Token.t -> bool) (a b : Scope) : Prop :=
  exists l, out b = (out a ++ l)%list /\ forallb P l = true.

(** From [a] to [b] the environment grew by diagnostics that satisfy [P]. *)
Definition records (P : Diag.t -> bool) (a b : Scope) : Prop :=
  exists ds, env b = record_all (env a) ds /\ forallb P ds = true.

(** What a relation between the scope before and after must satisfy to be
    kept by every branch of the loop: it is reflexive and transitive, each
    close and open helper keeps it (an open helper from a scope where its
    kind is closed, and [openSection] with a page open unless [implicitPage]
    is off, as the branches call them), and so do the push of the break
    token and [warn] with the types [may_warn] lets through, which are to
    include the types the options enable. *)
Record StepLaws (options : Options) (R : Scope -> Scope -> Prop)
       (may_warn : string -> bool) : Prop := {
  law_refl : forall sc, R sc sc;
  law_trans : forall a b c, R a b -> R b c -> R a c;
  law_closeSection : forall sc, R sc (closeSection sc);
  law_closePage : forall sc, R sc (closePage sc);
  law_closeSpread : forall sc, R sc (closeSpread sc);
  law_openSpread :
    forall sc meta, spreadOpen sc = false -> R sc (openSpread sc meta);
  law_openPage :
    forall sc meta, pageOpen sc = false -> R sc (openPage options sc meta);
  law_openSection :
    forall sc meta,
      sectionOpen sc = false ->
      (implicitPage options = true -> pageOpen sc = true) ->
      R sc (openSection sc meta);
  law_break : forall sc, R sc (push_out sc break_token);
  law_warn :
    forall sc line type message marker,
      may_warn type = true -> R sc (warn_sc sc line type message marker);
  law_types :
    forall type, In type (allowed_types options) -> may_warn type = true
}.

(** The pages pending after [toks], from [pages] pending ones; [None] once
    a section opens with no page pending, or a page close comes with none. *)
Fixpoint paged_after (pages : nat) (toks : list Token.t) : option nat :=
  match toks with
  | [] => Some pages
  | tok :: rest =>
      if Wrappers.is_open "page" tok then paged_after (S pages) rest
      else if Wrappers.is_close "page" tok then
             match pages with
             | O => None
             | S p => paged_after p rest
             end
      else if Wrappers.is_open "section" tok then
             match pages with
             | O => None
             | S _ => paged_after pages rest
             end
      else paged_after pages rest
  end.

(** Every section opens inside an open page. *)
Definition sections_inside_pages (toks : list Token.t) : bool :=
  match paged_after 0 toks with
  | Some _ => true
  | None => false
  end.

(** So far every section opened inside a page, and the page flag says
    whether one is pending; an open section has its page still open. *)
Definition sections_are_paged (sc : Scope) : Prop :=
  paged_after 0 (out sc) = pending (pageOpen sc)
  /\ (sectionOpen sc = true -> pageOpen sc = true).

(** The invariants, as relations between the scope before and after. *)
Definition keeps_paged (a b : Scope) : Prop :=
  sections_are_paged a -> sections_are_paged b.

Definition keeps_track (a b : Scope) : Prop :=
  flags_track_output a -> flags_track_output b.

Definition keeps_notes (a b : Scope) : Prop :=
  spread_notes_agree a -> spread_notes_agree b.

End Output.

(** ** Readings used for the marker lines *)

Module Words.

(** White space only. *)
Fixpoint blank (s : string) : bool :=
  match s with
  | EmptyString => true
  | String ch rest => is_space ch && blank rest
  end.

(** A character that is neither white space nor a quote. *)
Definition plain_char (ch : ascii) : bool :=
  negb (is_space ch) && negb (Ascii.eqb ch dquote || Ascii.eqb ch squote).

(** A word an author can write without quotes: not empty, no white space,
    no quote character. *)
Fixpoint plain_chars (s : string) : bool :=
  match s with
  | EmptyString => true
  | String ch rest => plain_char ch && plain_chars rest
  end.

Definition plain (w : string) : bool := truthy w && plain_chars w.

(** The characters of [s] that are no white space. *)
Fixpoint without_spaces (s : string) : string :=
  match s with
  | EmptyString => EmptyString
  | String ch rest =>
      if is_space ch then without_spaces rest
      else String ch (without_spaces rest)
  end.




(** All the strings of a list, one after the other. *)
Definition concat_all (l : list string) : string :=
  fold_right String.append "" l.


End Words.

(** ** Readings used for the attributes *)

Module Rendered.

(** The attributes of a token, none for [null]. *)
Definition attr_list (tok : Token.t) : list (string * string) :=
  match Token.attrs tok with
  | Some l => l
  | None => []
  end.

(** [token.attrGet(name)] of markdown-it: the value of the first attribute
    called [name], [None] for [null]. *)
Definition attrGet (tok : Token.t) (name : string) : option string :=
  JsObject.get (attr_list tok) name.

(** The keys [attachDataAttrs] does not copy as [data-] attributes. *)
Definition reserved (k : string) : bool :=
  String.eqb k "class" || String.eqb k "id"
  || String.eqb k "template" || String.eqb k "region".

(** The class attribute of a wrapper: the base class, then the classes of
    the author if there are any. *)
Definition merged_class (base extra : string) : string :=
  if truthy extra then trim (base ++ " " ++ extra) else base.

(** Distinct names and no empty value. *)
Definition tidy (l : list (string * string)) : Prop :=
  NoDup (map fst l) /\ forallb (fun nv => truthy (snd nv)) l = true.

End Rendered.

(** * Properties *)

(** ** Strings *)

Section StringFacts.

Lemma append_empty_r (s : string) : s ++ "" = s.
Proof. induction s as [|c s IH]; simpl; [reflexivity | now rewrite IH]. Qed.

Lemma append_assoc (a b c : string) : (a ++ b) ++ c = a ++ (b ++ c).
Proof. induction a as [|x a IH]; simpl; [reflexivity | now rewrite IH]. Qed.

Lemma push_char_append (buf : string) (ch : ascii) (s : string) :
  push_char buf ch ++ s = buf ++ String ch s.
Proof. unfold push_char. now rewrite append_assoc. Qed.

Lemma push_char_truthy (buf : string) (ch : ascii) :
  truthy (push_char buf ch) = true.
Proof. destruct buf; reflexivity. Qed.

Lemma includes_cons (ch c : ascii) (s : string) :
  includes (String ch s) c = Ascii.eqb ch c || includes s c.
Proof.
  unfold includes. simpl. destruct (Ascii.eqb ch c); [reflexivity|].
  simpl. destruct (indexOf s c <? 0) eqn:E.
  - apply Z.ltb_lt in E. symmetry. apply Z.leb_gt. exact E.
  - apply Z.ltb_ge in E. transitivity true; [|symmetry]; apply Z.leb_le; lia.
Qed.

Lemma space_is_no_quote (ch : ascii) :
  is_space ch = true ->
  Ascii.eqb ch dquote || Ascii.eqb ch squote = false.
Proof.
  destruct ch as [[] [] [] [] [] [] [] []]; vm_compute;
    intro H; (reflexivity || discriminate H).
Qed.

Lemma startsWith_inv (s : string) (c : ascii) :
  startsWith s c = true -> exists rest, s = String c rest.
Proof.
  destruct s as [|ch rest]; simpl; [discriminate|].
  intro H. apply Ascii.eqb_eq in H. subst. now exists rest.
Qed.

End StringFacts.

(** ** Objects *)

Section ObjectFacts.

Import JsObject.

Lemma get_replace_same (o : obj) (k v : string) :
  get (replace_or_append o k v) k = Some v.
Proof.
  induction o as [|[k0 v0] o IH]; simpl.
  - now rewrite String.eqb_refl.
  - destruct (String.eqb k0 k) eqn:E; simpl; rewrite E; [reflexivity|exact IH].
Qed.

Lemma get_replace_other (o : obj) (k v k' : string) :
  k <> k' -> get (replace_or_append o k v) k' = get o k'.
Proof.
  intro Hne. induction o as [|[k0 v0] o IH]; simpl.
  - apply String.eqb_neq in Hne. now rewrite Hne.
  - destruct (String.eqb k0 k) eqn:E; simpl.
    + apply String.eqb_eq in E. subst k0.
      apply String.eqb_neq in Hne. now rewrite Hne.
    + now rewrite IH.
Qed.

Lemma get_set_same (o : obj) (k v : string) :
  k <> "__proto__" -> get (set o k v) k = Some v.
Proof.
  intro H. unfold set. apply String.eqb_neq in H. rewrite H.
  apply get_replace_same.
Qed.

Lemma get_set_other (o : obj) (k v k' : string) :
  k <> k' -> get (set o k v) k' = get o k'.
Proof.
  intro H. unfold set. destruct (String.eqb k "__proto__"); [reflexivity|].
  now apply get_replace_other.
Qed.

Lemma keys_replace_in (o : obj) (k v x : string) :
  In x (map fst (replace_or_append o k v)) -> x = k \/ In x (map fst o).
Proof.
  induction o as [|[k0 v0] o IH]; simpl.
  - intros [H|[]]; now left.
  - destruct (String.eqb k0 k) eqn:E; simpl.
    + intros [H|H]; [right; now left | right; now right].
    + intros [H|H]; [right; now left|].
      destruct (IH H) as [?|?]; [now left | right; now right].
Qed.

Lemma keys_replace_nodup (o : obj) (k v : string) :
  NoDup (map fst o) -> NoDup (map fst (replace_or_append o k v)).
Proof.
  induction o as [|[k0 v0] o IH]; simpl; intro H.
  - constructor; [intros [] | constructor].
  - inversion H as [|? ? Hnin Hnd]; subst.
    destruct (String.eqb k0 k) eqn:E; simpl.
    + constructor; assumption.
    + constructor; [|now apply IH].
      intro Hin. apply keys_replace_in in Hin. destruct Hin as [->|Hin].
      * now rewrite String.eqb_refl in E.
      * now apply Hnin.
Qed.

Lemma keys_set_nodup (o : obj) (k v : string) :
  NoDup (map fst o) -> NoDup (map fst (set o k v)).
Proof.
  intro H. unfold set. destruct (String.eqb k "__proto__"); [exact H|].
  now apply keys_replace_nodup.
Qed.

End ObjectFacts.

(** ** The tokenizer *)

Section TokenizerFacts.

(** A white space character outside quotes ends the pending token. *)
Lemma scan_space (ch : ascii) (rest : string) (tokens : list string)
      (buf : string) :
  is_space ch = true ->
  scan (String ch rest) tokens buf None
  = scan rest (if truthy buf then tokens ++ [buf] else tokens) "" None.
Proof.
  intro H. simpl. rewrite (space_is_no_quote ch H). now rewrite H.
Qed.

(** Inside a quoted span every character but the quote joins the buffer,
    and the first quote met closes the span. *)
Lemma scan_inside_quote (q : ascii) (body rest : string)
      (tokens : list string) (buf : string) :
  includes body q = false ->
  scan (body ++ String q rest) tokens buf (Some q)
  = scan rest tokens (buf ++ body) None.
Proof.
  revert buf. induction body as [|c body IH]; intros buf H; simpl.
  - rewrite Ascii.eqb_refl. now rewrite append_empty_r.
  - rewrite includes_cons in H. apply orb_false_iff in H.
    destruct H as [Hc Hb]. rewrite Hc. rewrite (IH _ Hb).
    now rewrite push_char_append.
Qed.

(** An unterminated quote takes the rest of the line into the buffer. *)
Lemma scan_open_quote (q : ascii) (body : string) (tokens : list string)
      (buf : string) :
  includes body q = false ->
  scan body tokens buf (Some q) = (tokens, buf ++ body).
Proof.
  revert buf. induction body as [|c body IH]; intros buf H; simpl.
  - now rewrite append_empty_r.
  - rewrite includes_cons in H. apply orb_false_iff in H.
    destruct H as [Hc Hb]. rewrite Hc. rewrite (IH _ Hb).
    now rewrite push_char_append.
Qed.

(** The loop never loses what it holds: with a token pushed or a buffer
    pending, it ends with a token pushed or a buffer pending. *)
Lemma scan_holds (s : string) :
  forall tokens buf quote,
    tokens <> [] \/ truthy buf = true ->
    fst (scan s tokens buf quote) <> []
    \/ truthy (snd (scan s tokens buf quote)) = true.
Proof.
  induction s as [|ch s IH]; intros tokens buf quote H; simpl; [exact H|].
  destruct quote as [q|].
  - destruct (Ascii.eqb ch q); apply IH; [exact H|].
    right. apply push_char_truthy.
  - destruct (Ascii.eqb ch dquote || Ascii.eqb ch squote); [now apply IH|].
    destruct (is_space ch); apply IH.
    + destruct (truthy buf) eqn:E.
      * left. now destruct tokens.
      * left. destruct H as [H|H]; [exact H | discriminate H].
    + right. apply push_char_truthy.
Qed.

(** The tokens already pushed stay at the front. *)
Lemma scan_extends (s : string) :
  forall tokens buf quote,
    exists more, fst (scan s tokens buf quote) = (tokens ++ more)%list.
Proof.
  induction s as [|ch s IH]; intros tokens buf quote; simpl.
  - exists []. now rewrite app_nil_r.
  - destruct quote as [q|].
    + destruct (Ascii.eqb ch q); apply IH.
    + destruct (Ascii.eqb ch dquote || Ascii.eqb ch squote); [apply IH|].
      destruct (is_space ch); [|apply IH].
      destruct (truthy buf); [|apply IH].
      destruct (IH (tokens ++ [buf])%list "" None) as [more Hm].
      exists (buf :: more). rewrite Hm. now rewrite <- app_assoc.
Qed.

Lemma tokenize_at (rest : string) : tokenize (String "@" rest) <> [].
Proof.
  unfold tokenize. simpl.
  pose proof (scan_holds rest [] (push_char "" "@") None) as H.
  destruct (scan rest [] (push_char "" "@") None) as [tokens buf].
  simpl in H. destruct H as [H|H]; [now right| |].
  - destruct (truthy buf); [now destruct tokens | exact H].
  - rewrite H. now destruct tokens.
Qed.

End TokenizerFacts.

(** ** The marker line parser *)

Section ParserFacts.

Import Reading.

Lemma take_drop_word (s : string) : take_word s ++ drop_word s = s.
Proof.
  induction s as [|ch s IH]; simpl; [reflexivity|].
  destruct (is_space ch); simpl; [reflexivity | now rewrite IH].
Qed.

Lemma drop_word_head (s : string) :
  drop_word s = "" \/
  exists ch rest, drop_word s = String ch rest /\ is_space ch = true.
Proof.
  induction s as [|ch s IH]; simpl; [now left|].
  destruct (is_space ch) eqn:E; [|exact IH].
  right. now exists ch, s.
Qed.

(** Outside quotes, a run of characters with no white space and no quote
    joins the buffer as it is. *)
Lemma scan_word (s rest : string) :
  forall tokens buf,
    quote_free (take_word s) = true ->
    scan (take_word s ++ rest) tokens buf None
    = scan rest tokens (buf ++ take_word s) None.
Proof.
  induction s as [|ch s IH]; intros tokens buf H; simpl in *.
  - now rewrite append_empty_r.
  - destruct (is_space ch) eqn:E; simpl in *.
    + now rewrite append_empty_r.
    + apply andb_true_iff in H. destruct H as [Hq Hr].
      apply negb_true_iff in Hq. rewrite Hq, E.
      rewrite (IH _ _ Hr). now rewrite push_char_append.
Qed.

(** On a line free of quotes up to its first white space, the first token
    is the plain first word. *)
Lemma first_word_plain (rest : string) :
  quote_free (take_word rest) = true ->
  first_word (String "@" rest) = take_word rest.
Proof.
  intro H. unfold first_word, tokenize. simpl.
  rewrite <- (take_drop_word rest) at 1.
  rewrite (scan_word rest (drop_word rest) [] _ H).
  destruct (drop_word_head rest) as [-> | (ch & r & -> & Hs)].
  - reflexivity.
  - rewrite (scan_space ch r [] _ Hs). simpl.
    destruct (scan_extends r [String "@" (take_word rest)] "" None)
      as [more Hm].
    destruct (scan r [String "@" (take_word rest)] "" None) as [tokens buf].
    simpl in Hm. subst tokens. now destruct (truthy buf).
Qed.

Lemma parse_without_at (line : string) :
  startsWith (trim line) "@" = false -> parseMarkerLine line = Normal None.
Proof. intro H. unfold parseMarkerLine. now rewrite H. Qed.

Lemma parse_unknown_kind (line : string) :
  startsWith (trim line) "@" = true ->
  is_kind (first_word (trim line)) = false ->
  parseMarkerLine line = Normal None.
Proof.
  unfold parseMarkerLine, first_word. intros Hat Hk. rewrite Hat.
  cbv zeta. cbn [negb].
  destruct (startsWith_inv _ _ Hat) as [rest Hr]. rewrite Hr in *.
  pose proof (tokenize_at rest) as Hne.
  destruct (tokenize (String "@" rest)) as [|head more]; [now elim Hne|].
  change (is_kind (slice_from 1 head) = false) in Hk.
  now rewrite Hk.
Qed.

Lemma attr_step_nodup (st : JsObject.obj * list string) (t : string) :
  NoDup (map fst (fst st)) -> NoDup (map fst (fst (attr_step st t))).
Proof.
  destruct st as [a c]. unfold attr_step. simpl. intro H.
  repeat match goal with
         | |- context [if ?b then _ else _] => destruct b; simpl
         end; try exact H; now apply keys_set_nodup.
Qed.

Lemma attr_fold_nodup (tokens : list string) :
  forall st, NoDup (map fst (fst st)) ->
             NoDup (map fst (fst (fold_left attr_step tokens st))).
Proof.
  induction tokens as [|t tokens IH]; intros st H; simpl; [exact H|].
  apply IH. now apply attr_step_nodup.
Qed.

Lemma finish_attrs_nodup (st : JsObject.obj * list string) :
  NoDup (map fst (fst st)) -> NoDup (map fst (finish_attrs st)).
Proof.
  destruct st as [a [|c cs]]; simpl; intro H; [exact H|].
  now apply keys_set_nodup.
Qed.

Lemma parsed_attrs_nodup (tokens : list string) :
  NoDup (map fst (finish_attrs (attr_loop tokens))).
Proof.
  apply finish_attrs_nodup. apply attr_fold_nodup. constructor.
Qed.

Lemma is_kind_in (k : string) : is_kind k = true -> In k kinds.
Proof.
  unfold is_kind. intro H. apply existsb_exists in H.
  destruct H as (x & Hin & Heq). apply String.eqb_eq in Heq. now subst.
Qed.

(** The id after one attribute token. *)
Lemma attr_step_id (a : JsObject.obj) (c : list string) (t : string) :
  JsObject.get (fst (attr_step (a, c) t)) "id"
  = match id_set_by t with
    | Some v => Some v
    | None => JsObject.get a "id"
    end.
Proof.
  unfold attr_step, id_set_by.
  destruct (startsWith t ".").
  { now destruct (truthy (trim (slice_from 1 t))). }
  destruct (startsWith t "#").
  { destruct (truthy (trim (slice_from 1 t))); [|reflexivity].
    simpl. now apply get_set_same. }
  destruct (0 <? indexOf t "="); [|reflexivity]. simpl.
  set (key := trim (slice_to (Z.to_nat (indexOf t "=")) t)).
  set (val := trim (slice_from (Z.to_nat (indexOf t "=" + 1)) t)).
  destruct (String.eqb key "id") eqn:Eid.
  - apply String.eqb_eq in Eid. rewrite Eid. simpl.
    now apply get_set_same.
  - destruct (is_empty key); [reflexivity|].
    destruct (String.eqb key "class"); [reflexivity|]. simpl.
    apply get_set_other. now apply String.eqb_neq.
Qed.

Lemma attr_fold_id (tokens : list string) :
  forall st acc,
    JsObject.get (fst st) "id" = acc ->
    JsObject.get (fst (fold_left attr_step tokens st)) "id"
    = fold_left
        (fun acc t =>
           match id_set_by t with Some v => Some v | None => acc end)
        tokens acc.
Proof.
  induction tokens as [|t tokens IH]; intros [a c] acc H; cbn [fold_left].
  - exact H.
  - apply IH. rewrite attr_step_id. simpl in H. now rewrite H.
Qed.

Lemma finish_attrs_id (st : JsObject.obj * list string) :
  JsObject.get (finish_attrs st) "id" = JsObject.get (fst st) "id".
Proof.
  destruct st as [a [|c cs]]; simpl; [reflexivity|].
  now apply get_set_other.
Qed.

Lemma well_formed_break (k : string) :
  In k kinds -> well_formed (mkMeta (Some k) None [] None).
Proof.
  intro H. unfold well_formed. simpl. repeat split.
  - now exists k.
  - discriminate.
  - constructor.
Qed.

Lemma well_formed_scope (k : string) (n : option string)
      (a : JsObject.obj) :
  In k kinds ->
  k <> "break" ->
  (forall x, n = Some x -> is_name_token x = true) ->
  NoDup (map fst a) ->
  well_formed (mkMeta (Some k) n a None).
Proof.
  intros Hk Hb Hn Ha. unfold well_formed. simpl. repeat split.
  - now exists k.
  - congruence.
  - congruence.
  - exact Hn.
  - exact Ha.
Qed.

End ParserFacts.

(** C6.  A line whose trimmed text does not start with [@], and a line that
    starts with [@] followed by a word that is none of spread, page, section
    and break, makes the marker line parser return null; the block rule then
    declines the line and leaves the state, its environment and diagnostics
    included, as it was.  The word after [@] is the parser's first token,
    which on a line with no quote character before the first white space is
    the plain first word. *)
Theorem C6_non_marker_lines_fall_through (line : string) :
  Reading.not_a_marker line = true ->
  parseMarkerLine line = Normal None
  /\ forall state startLine endLine silent,
      Block.line_text state startLine = line ->
      Block.markerBlock state startLine endLine silent
      = Normal (false, state).
Proof.
  intro H.
  assert (Hp : parseMarkerLine line = Normal None).
  { unfold Reading.not_a_marker in H.
    destruct (startsWith (trim line) "@") eqn:Hat.
    - simpl in H. apply orb_true_iff in H. destruct H as [H|H].
      + apply parse_unknown_kind; [exact Hat|]. now apply negb_true_iff.
      + apply andb_true_iff in H. destruct H as [Hq Hk].
        apply negb_true_iff in Hk. apply parse_unknown_kind; [exact Hat|].
        destruct (startsWith_inv _ _ Hat) as [rest Hr]. rewrite Hr in *.
        unfold Reading.plain_first_word in *. simpl in Hq, Hk.
        now rewrite first_word_plain.
    - now apply parse_without_at. }
  split; [exact Hp|].
  intros state startLine endLine silent Hl.
  unfold Block.markerBlock. rewrite Hl. now rewrite Hp.
Qed.

Lemma C6_witness :
  Reading.not_a_marker "  @foo bar" = true
  /\ parseMarkerLine "  @foo bar" = Normal None.
Proof.
  split; [reflexivity|].
  exact (proj1 (C6_non_marker_lines_fall_through "  @foo bar" eq_refl)).
Defined.

(** C10.  The marker line parser is total: on every line, the empty one, a
    lone [@], white space only and unterminated quotes included, it returns
    null or a well-formed marker record, never raising; whenever the trimmed
    line starts with [@] the token list is not empty, so the read of the
    first token cannot fail. *)
Theorem C10_parser_is_total (line : string) :
  (exists r, parseMarkerLine line = Normal r
             /\ match r with
                | Some m => Reading.well_formed m
                | None => True
                end)
  /\ (startsWith (trim line) "@" = true -> tokenize (trim line) <> []).
Proof.
  assert (Htok : startsWith (trim line) "@" = true ->
                 tokenize (trim line) <> []).
  { intro Hat. destruct (startsWith_inv _ _ Hat) as [rest ->].
    apply tokenize_at. }
  split; [|exact Htok].
  unfold parseMarkerLine.
  destruct (startsWith (trim line) "@"); cbn [negb]; [|now exists None].
  specialize (Htok eq_refl).
  destruct (tokenize (trim line)) as [|head rest]; [now elim Htok|].
  cbv zeta.
  destruct (is_kind (slice_from 1 head)) eqn:Hk; cbn [negb];
    [|now exists None].
  apply is_kind_in in Hk.
  destruct (String.eqb (slice_from 1 head) "break") eqn:Hb.
  - eexists. split; [reflexivity|]. now apply well_formed_break.
  - apply String.eqb_neq in Hb.
    destruct rest as [|t rest].
    + eexists. split; [reflexivity|].
      apply well_formed_scope; try assumption; [discriminate | constructor].
    + destruct (is_name_token t) eqn:Hn.
      * eexists. split; [reflexivity|].
        apply well_formed_scope; try assumption.
        -- intros n E. now injection E as <-.
        -- apply parsed_attrs_nodup.
      * eexists. split; [reflexivity|].
        apply well_formed_scope; try assumption; [discriminate|].
        apply parsed_attrs_nodup.
Qed.

(** The lines C10 names: the empty line, white space only, a lone [@], and
    an unterminated quote, which takes the rest of the line as one token. *)
Example parser_edge_cases :
  parseMarkerLine "" = Normal None
  /\ parseMarkerLine "   " = Normal None
  /\ parseMarkerLine "@" = Normal None
  /\ parseMarkerLine ("@page " ++ DQ ++ "a b .c")
     = Normal (Some (mkMeta (Some "page") (Some "a b .c") [] None))
  /\ parseMarkerLine ("@" ++ SQ ++ "break" ++ SQ ++ " now")
     = Normal (Some (mkMeta (Some "break") None [] None)).
Proof. repeat split. Qed.

Lemma C10_witness :
  startsWith (trim (" @" ++ DQ ++ "page")) "@" = true
  /\ tokenize (trim (" @" ++ DQ ++ "page")) <> [].
Proof.
  split; [reflexivity|].
  exact (proj2 (C10_parser_is_total (" @" ++ DQ ++ "page")) eq_refl).
Defined.

(** C7.  The tokenizer splits on white space and takes a quoted span, single
    or double, into the token it stands in, without the quote characters;
    nothing escapes a quote, so the first matching quote character ends the
    span whatever precedes it.  [@page title="a b"] gives a page marker whose
    [title] is [a b]. *)
Theorem C7_quoted_span_is_one_token
        (q : ascii) (body rest : string) (tokens : list string)
        (buf : string) :
  q = dquote \/ q = squote ->
  includes body q = false ->
  scan (String q (body ++ String q rest)) tokens buf None
  = scan rest tokens (buf ++ body) None
  /\ (forall ch, is_space ch = true ->
                 scan (String ch rest) tokens buf None
                 = scan rest (if truthy buf then tokens ++ [buf] else tokens)
                        "" None)
  /\ parseMarkerLine ("@page title=" ++ DQ ++ "a b" ++ DQ)
     = Normal (Some (mkMeta (Some "page") None [("title", "a b")] None))
  /\ tokenize ("@page title=" ++ DQ ++ "a\" ++ DQ ++ " b" ++ DQ)
     = ["@page"; "title=a\"; "b"].
Proof.
  intros Hq Hb. repeat split.
  - assert (E : Ascii.eqb q dquote || Ascii.eqb q squote = true).
    { destruct Hq as [-> | ->]; reflexivity. }
    cbn [scan]. rewrite E. now apply scan_inside_quote.
  - intros ch Hs. now apply scan_space.
Qed.

Lemma C7_witness :
  scan (String squote ("a " ++ DQ ++ "b" ++ String squote " c")) [] "x=" None
  = scan " c" [] ("x=" ++ "a " ++ DQ ++ "b") None.
Proof.
  exact (proj1 (C7_quoted_span_is_one_token
                  squote ("a " ++ DQ ++ "b") " c" [] "x="
                  (or_intror eq_refl) eq_refl)).
Defined.

(** C3, refuted as stated: on [@page id=x] the token [id=x] sets the id, with
    no [#] token on the line. *)
Lemma C3_id_key_sets_id : ~ id_only_from_hash "@page id=x".
Proof.
  intro H. specialize (H _ eq_refl). vm_compute in H. discriminate H.
Qed.

(** C3, amended.  In the marker line parser a [key=value] token whose key is
    [id] sets the marker's id as a [#] token does, and of the tokens that set
    the id the last one wins.  For [@page class=foo .bar id=x #y] the class
    attribute is [foo bar] and the id is [y], the [#y] token overwriting the
    [x] of [id=x]; with the two tokens swapped the id is [x]. *)
Theorem C3_last_id_token_wins :
  (forall tokens,
      JsObject.get (finish_attrs (attr_loop tokens)) "id"
      = Reading.last_id tokens)
  /\ parseMarkerLine "@page class=foo .bar id=x #y"
     = Normal (Some (mkMeta (Some "page") None
                            [("id", "y"); ("class", "foo bar")] None))
  /\ parseMarkerLine "@page class=foo .bar #y id=x"
     = Normal (Some (mkMeta (Some "page") None
                            [("id", "x"); ("class", "foo bar")] None)).
Proof.
  repeat split.
  intro tokens. rewrite finish_attrs_id. unfold attr_loop, Reading.last_id.
  now apply attr_fold_id.
Qed.

(** ** The environment through the transform *)

Open Scope list_scope.

Section EnvFacts.

Lemma warn_record (e : Env) (ds : list Diag.t) (line : Z)
      (type message : string) (marker : option Meta) :
  warn (record_all e ds) line type message marker
  = record_all e (ds ++ [Diag.mk line type message marker]).
Proof. unfold record_all. now rewrite fold_left_app. Qed.

Lemma record_all_present (ds : list Diag.t) :
  forall used prior,
    record_all (mkEnv used (Some prior)) ds
    = mkEnv used (Some (prior ++ ds)).
Proof.
  induction ds as [|d ds IH]; intros used prior; simpl.
  - now rewrite app_nil_r.
  - unfold push_warning at 1. simpl. rewrite IH. now rewrite <- app_assoc.
Qed.

Lemma record_all_absent (ds : list Diag.t) (used : bool) :
  record_all (mkEnv used None) ds
  = mkEnv used (match ds with [] => None | _ => Some ds end).
Proof.
  destruct ds as [|d ds]; simpl; [reflexivity|].
  unfold push_warning at 1. simpl. now rewrite record_all_present.
Qed.

Lemma record_all_used (ds : list Diag.t) :
  forall e, __layoutMarkersUsed (record_all e ds) = __layoutMarkersUsed e.
Proof.
  induction ds as [|d ds IH]; intro e; simpl; [reflexivity|].
  now rewrite IH.
Qed.

Lemma uniform_compose (f g : Scope -> Scope) :
  uniform f -> uniform g -> uniform (fun sc => g (f sc)).
Proof.
  intros Hf Hg sc ds.
  destruct (Hf sc ds) as [ds1 H1]. destruct (Hg (f sc) ds1) as [ds2 H2].
  exists ds2. intro e. now rewrite H1, H2.
Qed.

Lemma uniform_id : uniform (fun sc => sc).
Proof. intros sc ds. exists ds. reflexivity. Qed.

(** A branch on the scope flags, which no environment changes. *)
Lemma uniform_if (c : Scope -> bool) (f g : Scope -> Scope) :
  (forall sc e, c (with_env sc e) = c sc) ->
  uniform f -> uniform g ->
  uniform (fun sc => if c sc then f sc else g sc).
Proof.
  intros Hc Hf Hg sc ds. destruct (c sc) eqn:E.
  - destruct (Hf sc ds) as [ds' H]. exists ds'. intro e.
    now rewrite Hc, E.
  - destruct (Hg sc ds) as [ds' H]. exists ds'. intro e.
    now rewrite Hc, E.
Qed.

Lemma uniform_warn (line : Z) (type message : string)
      (marker : option Meta) :
  uniform (fun sc => warn_sc sc line type message marker).
Proof.
  intros [o so po xo st sw e0] ds.
  exists (ds ++ [Diag.mk line type message marker]). intro e.
  unfold warn_sc, with_env. simpl. now rewrite warn_record.
Qed.

(** The helpers that leave the environment alone. *)
Ltac env_untouched :=
  intros [o so po xo st sw e0] ds; exists ds; intro e;
  destruct so, po, xo; reflexivity.

Lemma uniform_push (tok : Token.t) : uniform (fun sc => push_out sc tok).
Proof. env_untouched. Qed.

Lemma uniform_closeSection : uniform closeSection.
Proof. env_untouched. Qed.

Lemma uniform_closePage : uniform closePage.
Proof. env_untouched. Qed.

Lemma uniform_closeSpread : uniform closeSpread.
Proof. env_untouched. Qed.

Lemma uniform_openSpread (meta : Meta) :
  uniform (fun sc => openSpread sc meta).
Proof. env_untouched. Qed.

Lemma uniform_openSection (meta : Meta) :
  uniform (fun sc => openSection sc meta).
Proof. env_untouched. Qed.

Lemma uniform_openPage (options : Options) (meta : Meta) :
  uniform (fun sc => openPage options sc meta).
Proof.
  intros [o so po xo st sw e0] ds.
  unfold openPage, warn_sc, push_out, with_env. simpl.
  destruct so; simpl; [now exists ds|].
  destruct (preferPagesInSpreads options); simpl; [|now exists ds].
  eexists. intro e. rewrite warn_record. reflexivity.
Qed.

Lemma uniform_spread (meta : Meta) : uniform (fun sc => on_spread sc meta).
Proof.
  apply (uniform_compose
           (fun sc => closeSpread
                        (if spreadOpen sc
                         then warn_sc sc (line_of meta) "nested_spread"
                                      Msg.nested_spread (Some meta)
                         else sc))
           (fun sc => openSpread sc meta)); [|apply uniform_openSpread].
  apply (uniform_compose
           (fun sc => if spreadOpen sc
                      then warn_sc sc (line_of meta) "nested_spread"
                                   Msg.nested_spread (Some meta)
                      else sc)
           closeSpread); [|apply uniform_closeSpread].
  apply (uniform_if spreadOpen); [reflexivity | apply uniform_warn
                                  | apply uniform_id].
Qed.

Lemma uniform_page (options : Options) (meta : Meta) :
  uniform (fun sc => on_page options sc meta).
Proof.
  exact (uniform_compose closePage (fun sc => openPage options sc meta)
                         uniform_closePage (uniform_openPage options meta)).
Qed.

Lemma uniform_section (options : Options) (meta : Meta) :
  uniform (fun sc => on_section options sc meta).
Proof.
  set (line := line_of meta).
  set (page_stage := fun sc =>
         if negb (pageOpen sc) then
           if implicitPage options then
             openPage options
                      (warn_sc sc line "implicit_page" Msg.implicit_page
                               (Some meta))
                      (mkMeta None (Some "auto") [] (Some line))
           else
             warn_sc sc line "section_without_page" Msg.section_without_page
                     (Some meta)
         else sc).
  set (spread_stage := fun sc =>
         if spreadOpen sc && spreadStartedWithNoPagesYet sc
         then warn_sc sc line "spread_without_pages" Msg.spread_without_pages
                      (Some meta)
         else sc).
  change (uniform (fun sc =>
            openSection (spread_stage (page_stage (closeSection sc))) meta)).
  assert (Hp : uniform page_stage).
  { apply (uniform_if (fun sc => negb (pageOpen sc))); [reflexivity| |].
    - destruct (implicitPage options).
      + exact (uniform_compose _ _ (uniform_warn _ _ _ _)
                               (uniform_openPage options _)).
      + apply uniform_warn.
    - apply uniform_id. }
  assert (Hs : uniform spread_stage).
  { apply (uniform_if
             (fun sc => spreadOpen sc && spreadStartedWithNoPagesYet sc));
      [reflexivity | apply uniform_warn | apply uniform_id]. }
  exact (uniform_compose _ _
           (uniform_compose _ _
              (uniform_compose _ _ uniform_closeSection Hp) Hs)
           (uniform_openSection meta)).
Qed.

Lemma uniform_break (options : Options) (meta : Meta) :
  uniform (fun sc => on_break options sc meta).
Proof.
  set (warn_stage := fun sc =>
         if negb (sectionOpen sc) && negb (pageOpen sc)
            && negb (spreadOpen sc) && warnOnBreakWithoutScope options
         then warn_sc sc (line_of meta) "break_without_scope"
                      Msg.break_without_scope (Some meta)
         else sc).
  set (close_stage := fun sc =>
         if sectionOpen sc then closeSection sc
         else if pageOpen sc then closePage sc
         else if spreadOpen sc then closeSpread sc
         else sc).
  change (uniform (fun sc =>
            push_out (close_stage (warn_stage sc)) break_token)).
  assert (Hw : uniform warn_stage).
  { apply (uniform_if
             (fun sc => negb (sectionOpen sc) && negb (pageOpen sc)
                        && negb (spreadOpen sc)
                        && warnOnBreakWithoutScope options));
      [reflexivity | apply uniform_warn | apply uniform_id]. }
  assert (Hc : uniform close_stage).
  { apply (uniform_if sectionOpen);
      [reflexivity | apply uniform_closeSection |].
    apply (uniform_if pageOpen); [reflexivity | apply uniform_closePage |].
    apply (uniform_if spreadOpen);
      [reflexivity | apply uniform_closeSpread | apply uniform_id]. }
  exact (uniform_compose _ _ (uniform_compose _ _ Hw Hc)
                         (uniform_push break_token)).
Qed.

Lemma uniform_visit (options : Options) (tok : Token.t) :
  uniform (fun sc => visit options sc tok).
Proof.
  unfold visit.
  destruct (negb (String.eqb (Token.type tok) "layout_marker"));
    [apply uniform_push|].
  destruct (kind _) as [k|]; [|apply uniform_id].
  destruct (String.eqb k "spread"); [apply uniform_spread|].
  destruct (String.eqb k "page"); [apply uniform_page|].
  destruct (String.eqb k "section"); [apply uniform_section|].
  destruct (String.eqb k "break"); [apply uniform_break | apply uniform_id].
Qed.

Lemma uniform_loop (options : Options) (toks : list Token.t) :
  uniform (fun sc => fold_left (visit options) toks sc).
Proof.
  induction toks as [|tok toks IH]; simpl; [apply uniform_id|].
  exact (uniform_compose _ _ (uniform_visit options tok) IH).
Qed.

Lemma uniform_eof : uniform at_eof.
Proof.
  apply (uniform_compose
           (fun sc => if spreadOpen sc
                         && negb (sawAnyPageInsideCurrentSpread sc)
                      then warn_sc sc 0 "spread_eof_close"
                                   Msg.spread_eof_close None
                      else sc)
           closeSpread); [|apply uniform_closeSpread].
  apply (uniform_if
           (fun sc => spreadOpen sc
                      && negb (sawAnyPageInsideCurrentSpread sc)));
    [reflexivity | apply uniform_warn | apply uniform_id].
Qed.

(** The output and the diagnostics of a run are fixed by the options and
    the tokens. *)
Lemma transform_uniform (options : Options) (toks : list Token.t) :
  exists out' ds,
  forall e,
    layout_transform options (mkCore toks e)
    = if __layoutMarkersUsed e then mkCore out' (record_all e ds)
      else mkCore toks e.
Proof.
  pose proof (uniform_compose _ _ (uniform_loop options toks) uniform_eof)
    as H.
  set (e0 := mkEnv true None).
  destruct (H (initial_scope e0) []) as [ds Hds].
  exists (out (at_eof (fold_left (visit options) toks (initial_scope e0)))),
    ds.
  intro e. unfold layout_transform. simpl.
  destruct (__layoutMarkersUsed e); [|reflexivity]. simpl.
  specialize (Hds e). simpl in Hds. unfold with_env in Hds. simpl in Hds.
  change (mkScope [] false false false false false e)
    with (initial_scope e) in Hds.
  now rewrite Hds.
Qed.

End EnvFacts.

(** ** The scope transform: claims *)

(** C9.  The transform is deterministic and keeps no state between runs: the
    options and the input tokens alone fix the output tokens and the list of
    diagnostics a run records, in their order, whatever the environment held
    before; a run without the marker flag leaves everything as it was. *)
Theorem C9_transform_is_deterministic (options : Options)
        (toks : list Token.t) :
  exists (out' : list Token.t) (ds : list Diag.t),
  forall e : Env,
    layout_transform options (mkCore toks e)
    = if __layoutMarkersUsed e then mkCore out' (record_all e ds)
      else mkCore toks e.
Proof. apply transform_uniform. Qed.

(** C2, refuted as stated: a nested [@spread] run against an environment with
    no collection leaves a collection of two diagnostics. *)
Lemma C2_absent_collection_is_created :
  ~ absent_stays_absent default_options
      (Sample.marker "@spread a" 0 ++ Sample.marker "@spread b" 1).
Proof. unfold absent_stays_absent. vm_compute. discriminate. Qed.

(** C2, amended.  When the environment has no diagnostics collection, the
    transform creates it at the first diagnostic and records in it, in their
    order, the very diagnostics it appends to a collection that is present;
    the field stays absent only when the run emits no diagnostic.  The output
    tokens are the same either way, and no error is raised. *)
Theorem C2_absent_collection_is_filled (options : Options)
        (toks : list Token.t) :
  exists (out' : list Token.t) (ds : list Diag.t),
    layout_transform options (mkCore toks (mkEnv true None))
    = mkCore out' (mkEnv true (match ds with [] => None | _ => Some ds end))
    /\ forall prior,
        layout_transform options (mkCore toks (mkEnv true (Some prior)))
        = mkCore out' (mkEnv true (Some (prior ++ ds))).
Proof.
  destruct (transform_uniform options toks) as (out' & ds & H).
  exists out', ds. split.
  - rewrite H. simpl. now rewrite record_all_absent.
  - intro prior. rewrite H. simpl. now rewrite record_all_present.
Qed.

Section BreakFacts.

Import Wrappers.

Lemma on_break_out (options : Options) (sc : Scope) (meta : Meta) :
  out (on_break options sc meta)
  = out sc ++ nearest_close sc ++ [break_token].
Proof.
  destruct sc as [o so po xo st sw e0], options as [ip pp wb].
  destruct xo, po, so, wb; cbn; rewrite <- ?app_assoc; reflexivity.
Qed.

Lemma on_break_flags (options : Options) (sc : Scope) (meta : Meta) :
  open_flags (on_break options sc meta) = after_close sc.
Proof.
  destruct sc as [o so po xo st sw e0], options as [ip pp wb].
  destruct xo, po, so, wb; reflexivity.
Qed.

Lemma visit_break (options : Options) (sc : Scope) (tok : Token.t)
      (meta : Meta) :
  Token.type tok = "layout_marker" ->
  Token.meta tok = Some meta ->
  kind meta = Some "break" ->
  visit options sc tok = on_break options sc meta.
Proof.
  intros Ht Hm Hk. unfold visit. now rewrite Ht, Hm, Hk.
Qed.

End BreakFacts.

(** C5.  A [@break] marker closes the single nearest open scope, section
    before page before spread, leaving the enclosing scopes open, and then
    emits one break token, whether or not a scope was open; the break token
    has the class [md-break], [aria-hidden] set to [true] and no other
    attribute.  On [@spread], [@page], [@section] and three [@break] the
    breaks close the section, the page and the spread, in this order. *)
Theorem C5_break_closes_nearest_scope (options : Options) (sc : Scope)
        (tok : Token.t) (meta : Meta) :
  Token.type tok = "layout_marker" ->
  Token.meta tok = Some meta ->
  kind meta = Some "break" ->
  out (visit options sc tok)
  = out sc ++ Wrappers.nearest_close sc ++ [break_token]
  /\ Wrappers.open_flags (visit options sc tok) = Wrappers.after_close sc
  /\ break_token
     = Token.mk "layout_break" "div" 0
                (Some [("class", "md-break"); ("aria-hidden", "true")])
                "" None
  /\ Sample.types (Sample.run default_options ScenarioD.input)
     = ["layout_spread_open"; "layout_page_open"; "layout_section_open";
        "inline"; "layout_section_close"; "layout_break";
        "inline"; "layout_page_close"; "layout_break";
        "inline"; "layout_spread_close"; "layout_break"; "inline"].
Proof.
  intros Ht Hm Hk. rewrite (visit_break options sc tok meta Ht Hm Hk).
  repeat split.
  - apply on_break_out.
  - apply on_break_flags.
Qed.

Lemma C5_witness :
  Wrappers.open_flags
    (visit default_options
           (mkScope [] true true false false true Sample.fresh_env)
           (Block.marker_token (mkMeta (Some "break") None [] None) 3))
  = (true, false, false).
Proof.
  exact (proj1 (proj2 (C5_break_closes_nearest_scope
                         default_options
                         (mkScope [] true true false false true
                                  Sample.fresh_env)
                         (Block.marker_token
                            (mkMeta (Some "break") None [] None) 3)
                         _ eq_refl eq_refl eq_refl))).
Defined.

Section ContentFacts.

Lemma visit_content (options : Options) (sc : Scope) (tok : Token.t) :
  is_content tok = true -> visit options sc tok = push_out sc tok.
Proof. unfold visit, is_content. now intros ->. Qed.

Lemma loop_content (options : Options) (toks : list Token.t) :
  forall sc,
    forallb is_content toks = true ->
    fold_left (visit options) toks sc
    = mkScope (out sc ++ toks) (spreadOpen sc) (pageOpen sc)
              (sectionOpen sc) (spreadStartedWithNoPagesYet sc)
              (sawAnyPageInsideCurrentSpread sc) (env sc).
Proof.
  induction toks as [|tok toks IH]; intros sc H; simpl.
  - rewrite app_nil_r. now destruct sc.
  - simpl in H. apply andb_true_iff in H. destruct H as [Ht Hr].
    rewrite (visit_content options sc tok Ht). rewrite (IH _ Hr).
    unfold push_out. simpl. now rewrite <- app_assoc.
Qed.

(** The section marker of scenario C, met with no page and no spread
    open. *)
Lemma on_section_implicit (options : Options) (sc : Scope)
      (startLine : nat) :
  implicitPage options = true ->
  (spreadOpen sc, pageOpen sc, sectionOpen sc) = (false, false, false) ->
  visit options sc
        (Block.marker_token (ScenarioC.section_meta startLine) startLine)
  = mkScope (out sc ++ [ScenarioC.page_open; ScenarioC.section_open])
            false true true (spreadStartedWithNoPagesYet sc)
            (sawAnyPageInsideCurrentSpread sc)
            (record_all (env sc) (ScenarioC.diagnostics options startLine)).
Proof.
  intros Hi Hf. destruct sc as [o so po xo st sw e0].
  destruct options as [ip pp wb]. simpl in Hi, Hf.
  injection Hf as -> -> ->. subst ip.
  cbn [out env spreadStartedWithNoPagesYet sawAnyPageInsideCurrentSpread].
  replace (o ++ [ScenarioC.page_open; ScenarioC.section_open])
    with ((o ++ [ScenarioC.page_open]) ++ [ScenarioC.section_open])
    by now rewrite <- app_assoc.
  destruct pp; vm_compute; reflexivity.
Qed.

End ContentFacts.

(** C8.  With [implicitPage] on, a document whose one marker is a bare
    [@section intro], met with no page open, gets exactly one [implicit_page]
    diagnostic, carrying the line of the marker, and its output has a page
    open token with [data-page] set to [auto] and no author attribute right
    before the section open token with [data-section] set to [intro]. *)
Theorem C8_bare_section_gets_implicit_page (options : Options)
        (before after : list Token.t) (startLine : nat) (e : Env) :
  implicitPage options = true ->
  forallb is_content before = true ->
  forallb is_content after = true ->
  __layoutMarkersUsed e = true ->
  Sample.marker "@section intro" startLine
  = [Block.marker_token (ScenarioC.section_meta startLine) startLine]
  /\ layout_transform options
       (mkCore (before ++ Sample.marker "@section intro" startLine ++ after)
               e)
     = mkCore (before ++ [ScenarioC.page_open; ScenarioC.section_open]
                      ++ after)
              (record_all e (ScenarioC.diagnostics options startLine))
  /\ ScenarioC.count_type "implicit_page"
       (ScenarioC.diagnostics options startLine) = 1%nat
  /\ forall d, In d (ScenarioC.diagnostics options startLine) ->
               Diag.line d = Z.of_nat startLine + 1.
Proof.
  intros Hi Hb Ha Hu. split; [reflexivity|]. split; [|split].
  - unfold layout_transform. cbn [core_env tokens]. rewrite Hu. cbn [negb].
    rewrite fold_left_app. rewrite (loop_content options before _ Hb).
    change (Sample.marker "@section intro" startLine)
      with [Block.marker_token (ScenarioC.section_meta startLine) startLine].
    rewrite fold_left_app. cbn [fold_left].
    match goal with
    | |- context [visit options ?sc (Block.marker_token _ _)] =>
        rewrite (on_section_implicit options sc startLine Hi eq_refl)
    end.
    rewrite (loop_content options after _ Ha).
    unfold at_eof, closeSpread. cbn -[record_all Z.of_nat Z.add].
    rewrite <- !app_assoc. reflexivity.
  - unfold ScenarioC.diagnostics, ScenarioC.count_type.
    now destruct (preferPagesInSpreads options).
  - unfold ScenarioC.diagnostics. intros d Hd.
    destruct (preferPagesInSpreads options); simpl in Hd;
      repeat (destruct Hd as [<-|Hd]; [reflexivity|]); now elim Hd.
Qed.

Lemma C8_witness :
  layout_transform default_options
    (mkCore (Sample.text "Title" ++ Sample.marker "@section intro" 2
                         ++ Sample.text "Hello")
            Sample.fresh_env)
  = mkCore (Sample.text "Title"
              ++ [ScenarioC.page_open; ScenarioC.section_open]
              ++ Sample.text "Hello")
           (record_all Sample.fresh_env
                       (ScenarioC.diagnostics default_options 2)).
Proof.
  exact (proj1 (proj2 (C8_bare_section_gets_implicit_page
                         default_options (Sample.text "Title")
                         (Sample.text "Hello") 2 Sample.fresh_env
                         eq_refl eq_refl eq_refl eq_refl))).
Defined.

(** C4, on the code: a [@section] met in an open spread that has seen no
    page, with [implicitPage] on and no page open, records [implicit_page]
    alone; the implicit page clears the flag before it is tested, and
    [spread_without_pages] is not recorded.  With [implicitPage] off the
    same input records it after [section_without_page]. *)
Theorem C4_spread_without_pages_is_lost :
  (spreadOpen (ScenarioSpreadSection.at_section default_options) = true
   /\ spreadStartedWithNoPagesYet
        (ScenarioSpreadSection.at_section default_options) = true
   /\ pageOpen (ScenarioSpreadSection.at_section default_options) = false)
  /\ Sample.warning_types
       (Sample.run default_options ScenarioSpreadSection.input)
     = Some ["implicit_page"]
  /\ Sample.warning_types
       (Sample.run ScenarioSpreadSection.explicit_pages_off
                   ScenarioSpreadSection.input)
     = Some ["section_without_page"; "spread_without_pages";
             "spread_eof_close"].
Proof. repeat split. Qed.

(** C1, on the code: the end of the document closes an open spread only, so
    a page or a section opened outside a spread and not closed by a later
    marker stays open in the output; and a page opened while a section with
    no page is open is closed after that section, the two pairs crossing. *)
Theorem C1_wrappers_left_open_or_crossed :
  (Sample.types (Sample.run default_options ScenarioOpenEnds.lone_page)
   = ["layout_page_open"]
   /\ Wrappers.balanced "page"
        (tokens (Sample.run default_options ScenarioOpenEnds.lone_page))
      = false)
  /\ (Sample.types (Sample.run default_options ScenarioOpenEnds.lone_section)
      = ["layout_page_open"; "layout_section_open"; "inline"]
      /\ Wrappers.balanced "section"
           (tokens (Sample.run default_options
                               ScenarioOpenEnds.lone_section))
         = false)
  /\ (Sample.types (Sample.run ScenarioOpenEnds.explicit_pages_off
                               ScenarioOpenEnds.section_then_page)
      = ["layout_spread_open"; "layout_section_open"; "layout_page_open";
         "layout_section_close"; "layout_page_close"; "layout_spread_close"]
      /\ Wrappers.nested
           (tokens (Sample.run ScenarioOpenEnds.explicit_pages_off
                               ScenarioOpenEnds.section_then_page))
         = false).
Proof. repeat split. Qed.

(** The output of scenario D passes both checks of the wrappers. *)
Example scenario_D_is_balanced_and_nested :
  forallb (fun k => Wrappers.balanced k
                      (tokens (Sample.run default_options ScenarioD.input)))
          Wrappers.wrapper_kinds = true
  /\ Wrappers.nested (tokens (Sample.run default_options ScenarioD.input))
     = true
  /\ layoutWarnings (core_env (Sample.run default_options ScenarioD.input))
     = None.
Proof. split; [|split]; vm_compute; reflexivity. Qed.

(** * Further properties of the scope transform *)

(** ** What the helpers leave alone *)

Section Frames.

Lemma closeSection_closes (sc : Scope) : sectionOpen (closeSection sc) = false.
Proof. destruct sc as [o so po xo st sw e0]; destruct xo; reflexivity. Qed.

Lemma closePage_closes (sc : Scope) : pageOpen (closePage sc) = false.
Proof. destruct sc as [o so po xo st sw e0]; destruct po, xo; reflexivity. Qed.

Lemma closeSpread_closes (sc : Scope) : spreadOpen (closeSpread sc) = false.
Proof.
  destruct sc as [o so po xo st sw e0]; destruct so, po, xo; reflexivity.
Qed.

Lemma warn_sc_page (sc : Scope) (line : Z) (type message : string)
      (marker : option Meta) :
  pageOpen (warn_sc sc line type message marker) = pageOpen sc.
Proof. reflexivity. Qed.

Lemma warn_sc_section (sc : Scope) (line : Z) (type message : string)
      (marker : option Meta) :
  sectionOpen (warn_sc sc line type message marker) = sectionOpen sc.
Proof. reflexivity. Qed.

Lemma openPage_section (options : Options) (sc : Scope) (meta : Meta) :
  sectionOpen (openPage options sc meta) = sectionOpen sc.
Proof.
  destruct sc as [o so po xo st sw e0], options as [ip pp wb].
  destruct so, pp; reflexivity.
Qed.

Lemma openPage_opens (options : Options) (sc : Scope) (meta : Meta) :
  pageOpen (openPage options sc meta) = true.
Proof.
  destruct sc as [o so po xo st sw e0], options as [ip pp wb].
  destruct so, pp; reflexivity.
Qed.

End Frames.

(** ** A relation kept by every step *)

(** The marker branches and the end of the document are compositions of the
    close and open helpers, of [warn] and of the push of the break token.  A
    reflexive and transitive relation between the scope before and after,
    kept by each of these, is kept by every branch. *)
Section StepRelation.

Import Output.

Variable options : Options.
Variable R : Scope -> Scope -> Prop.
Variable may_warn : string -> bool.
Hypothesis laws : StepLaws options R may_warn.

Let R_refl := law_refl _ _ _ laws.
Let R_trans := law_trans _ _ _ laws.
Let R_closeSection := law_closeSection _ _ _ laws.
Let R_closePage := law_closePage _ _ _ laws.
Let R_closeSpread := law_closeSpread _ _ _ laws.
Let R_openSpread := law_openSpread _ _ _ laws.
Let R_openPage := law_openPage _ _ _ laws.
Let R_openSection := law_openSection _ _ _ laws.
Let R_break := law_break _ _ _ laws.
Let R_warn := law_warn _ _ _ laws.

Lemma warn_nested : may_warn "nested_spread" = true.
Proof. apply (law_types _ _ _ laws). simpl. tauto. Qed.

Lemma warn_no_pages : may_warn "spread_without_pages" = true.
Proof. apply (law_types _ _ _ laws). simpl. tauto. Qed.

Lemma warn_eof : may_warn "spread_eof_close" = true.
Proof. apply (law_types _ _ _ laws). simpl. tauto. Qed.

Lemma warn_implicit :
  implicitPage options = true -> may_warn "implicit_page" = true.
Proof.
  intro H. apply (law_types _ _ _ laws). unfold allowed_types.
  rewrite H. simpl. tauto.
Qed.

Lemma warn_no_page :
  implicitPage options = false -> may_warn "section_without_page" = true.
Proof.
  intro H. apply (law_types _ _ _ laws). unfold allowed_types.
  rewrite H. simpl. tauto.
Qed.

Lemma warn_break :
  warnOnBreakWithoutScope options = true ->
  may_warn "break_without_scope" = true.
Proof.
  intro H. apply (law_types _ _ _ laws). unfold allowed_types.
  rewrite H. apply in_or_app. right. apply in_or_app. right.
  apply in_or_app. right. simpl. tauto.
Qed.

Lemma step_on_spread (sc : Scope) (meta : Meta) : R sc (on_spread sc meta).
Proof.
  unfold on_spread.
  set (sc1 := if spreadOpen sc then _ else sc).
  assert (H1 : R sc sc1).
  { subst sc1. destruct (spreadOpen sc);
      [apply R_warn, warn_nested | apply R_refl]. }
  apply (R_trans _ _ _ H1).
  apply (R_trans _ _ _ (R_closeSpread sc1)).
  apply R_openSpread. apply closeSpread_closes.
Qed.

Lemma step_on_page (sc : Scope) (meta : Meta) :
  R sc (on_page options sc meta).
Proof.
  unfold on_page. apply (R_trans _ _ _ (R_closePage sc)).
  apply R_openPage. apply closePage_closes.
Qed.

Lemma on_section_prelude (sc : Scope) (meta : Meta) :
  on_section options sc meta
  = openSection (section_prelude options sc meta) meta.
Proof using Type. reflexivity. Qed.

Lemma step_section_prelude (sc : Scope) (meta : Meta) :
  R sc (section_prelude options sc meta)
  /\ sectionOpen (section_prelude options sc meta) = false
  /\ (implicitPage options = true ->
      pageOpen (section_prelude options sc meta) = true).
Proof.
  clear R_openSection. unfold section_prelude. cbv zeta.
  pose proof (R_closeSection sc) as H1.
  pose proof (closeSection_closes sc) as F1.
  set (sc1 := closeSection sc) in *.
  set (sc2 := if negb (pageOpen sc1) then _ else sc1).
  assert (H2 : R sc1 sc2 /\ sectionOpen sc2 = false
               /\ (implicitPage options = true -> pageOpen sc2 = true)).
  { subst sc2. destruct (pageOpen sc1) eqn:Ep; simpl; [now repeat split|].
    destruct (implicitPage options) eqn:Ei.
    - repeat split.
      + eapply R_trans; [apply R_warn; now apply warn_implicit|].
        apply R_openPage. now rewrite warn_sc_page.
      + rewrite openPage_section. now rewrite warn_sc_section.
      + intros _. apply openPage_opens.
    - repeat split; [apply R_warn; now apply warn_no_page | | discriminate].
      now rewrite warn_sc_section. }
  destruct H2 as (H2 & F2 & P2).
  destruct (spreadOpen sc2 && spreadStartedWithNoPagesYet sc2).
  - repeat split.
    + eapply R_trans; [exact H1|]. eapply R_trans; [exact H2|].
      apply R_warn, warn_no_pages.
    + now rewrite warn_sc_section.
    + intro Hi. rewrite warn_sc_page. now apply P2.
  - repeat split; [|exact F2|exact P2].
    eapply R_trans; [exact H1 | exact H2].
Qed.

Lemma step_on_section (sc : Scope) (meta : Meta) :
  R sc (on_section options sc meta).
Proof.
  rewrite on_section_prelude.
  destruct (step_section_prelude sc meta) as (H & F & P).
  eapply R_trans; [exact H|]. now apply R_openSection.
Qed.

Lemma step_on_break (sc : Scope) (meta : Meta) :
  R sc (on_break options sc meta).
Proof.
  unfold on_break. cbv zeta.
  set (sc1 := if negb (sectionOpen sc) && _ && _ && _ then _ else sc).
  assert (H1 : R sc sc1).
  { subst sc1. destruct (warnOnBreakWithoutScope options) eqn:Ew.
    - destruct (negb (sectionOpen sc) && negb (pageOpen sc)
                && negb (spreadOpen sc) && true);
        [apply R_warn; now apply warn_break | apply R_refl].
    - rewrite andb_false_r. apply R_refl. }
  set (sc2 := if sectionOpen sc1 then _ else _).
  assert (H2 : R sc1 sc2).
  { subst sc2. destruct (sectionOpen sc1); [apply R_closeSection|].
    destruct (pageOpen sc1); [apply R_closePage|].
    destruct (spreadOpen sc1); [apply R_closeSpread | apply R_refl]. }
  eapply R_trans; [exact H1|]. eapply R_trans; [exact H2|]. apply R_break.
Qed.

Lemma step_marker (sc : Scope) (tok : Token.t) :
  is_content tok = false -> R sc (visit options sc tok).
Proof.
  unfold is_content, visit. intros ->.
  destruct (kind _) as [k|]; [|apply R_refl].
  destruct (String.eqb k "spread"); [apply step_on_spread|].
  destruct (String.eqb k "page"); [apply step_on_page|].
  destruct (String.eqb k "section"); [apply step_on_section|].
  destruct (String.eqb k "break"); [apply step_on_break | apply R_refl].
Qed.

Lemma step_at_eof (sc : Scope) : R sc (at_eof sc).
Proof.
  unfold at_eof. cbv zeta.
  set (sc1 := if spreadOpen sc && _ then _ else sc).
  assert (H1 : R sc sc1).
  { subst sc1.
    destruct (spreadOpen sc && negb (sawAnyPageInsideCurrentSpread sc));
      [apply R_warn, warn_eof | apply R_refl]. }
  eapply R_trans; [exact H1 | apply R_closeSpread].
Qed.

(** With the content tokens keeping the relation too, the loop keeps it. *)
Variable content_ok : Token.t -> bool.
Hypothesis R_content :
  forall sc tok, is_content tok = true -> content_ok tok = true ->
                 R sc (push_out sc tok).

Lemma step_visit (sc : Scope) (tok : Token.t) :
  (is_content tok = true -> content_ok tok = true) ->
  R sc (visit options sc tok).
Proof.
  intro H. destruct (is_content tok) eqn:E.
  - rewrite (visit_content options sc tok E).
    apply R_content; [exact E | now apply H].
  - now apply step_marker.
Qed.

Lemma step_loop (toks : list Token.t) :
  forall sc,
    forallb (fun tok => negb (is_content tok) || content_ok tok) toks = true ->
    R sc (fold_left (visit options) toks sc).
Proof.
  induction toks as [|tok toks IH]; intros sc H; simpl; [apply R_refl|].
  simpl in H. apply andb_true_iff in H. destruct H as [Ht Hr].
  eapply R_trans; [|now apply IH].
  apply step_visit. intro E. rewrite E in Ht. exact Ht.
Qed.

Lemma step_run (toks : list Token.t) (sc : Scope) :
  forallb (fun tok => negb (is_content tok) || content_ok tok) toks = true ->
  R sc (at_eof (fold_left (visit options) toks sc)).
Proof.
  intro H. exact (R_trans _ _ _ (step_loop toks sc H) (step_at_eof _)).
Qed.

End StepRelation.

(** ** The tokens the transform creates *)

Section CreatedTokens.

Import Output.

Lemma attrSet_type (tok : Token.t) (n v : string) :
  Token.type (Token.attrSet tok n v) = Token.type tok.
Proof. reflexivity. Qed.

Lemma set_if_type (tok : Token.t) (n : string) (v : option string) :
  Token.type (Attrs.set_if tok n v) = Token.type tok.
Proof. now destruct v. Qed.

Lemma data_step_type (tok : Token.t) (kv : string * string) :
  Token.type (Attrs.data_step tok kv) = Token.type tok.
Proof.
  destruct kv as [k v]. unfold Attrs.data_step.
  destruct (is_empty v); [reflexivity|].
  now destruct (_ || _).
Qed.

Lemma data_loop_type (l : list (string * string)) :
  forall tok, Token.type (fold_left Attrs.data_step l tok) = Token.type tok.
Proof.
  induction l as [|kv l IH]; intro tok; simpl; [reflexivity|].
  rewrite IH. apply data_step_type.
Qed.

Lemma addClasses_type (tok : Token.t) (base extra : string) :
  Token.type (Attrs.addClasses tok base extra) = Token.type tok.
Proof. unfold Attrs.addClasses. now destruct (truthy _). Qed.

Lemma attachDataAttrs_type (tok : Token.t) (kind : string)
      (name : option string) (attrs : JsObject.obj) :
  Token.type (Attrs.attachDataAttrs tok kind name attrs) = Token.type tok.
Proof.
  unfold Attrs.attachDataAttrs. rewrite data_loop_type.
  rewrite !set_if_type.
  destruct name as [n|]; [|reflexivity].
  destruct (truthy n); [|reflexivity].
  destruct (String.eqb kind "spread"), (String.eqb kind "page"),
    (String.eqb kind "section"); reflexivity.
Qed.

Lemma wrapper_open_type (type base kind : string) (meta : Meta) :
  Token.type (wrapper_open type base kind meta) = type.
Proof.
  unfold wrapper_open. rewrite attachDataAttrs_type.
  now rewrite addClasses_type.
Qed.

Lemma inserted_is_content (tok : Token.t) :
  inserted tok = true -> is_content tok = true.
Proof.
  unfold inserted, is_content. intro H. apply existsb_exists in H.
  destruct H as (x & Hin & Heq). apply String.eqb_eq in Heq. rewrite Heq.
  simpl in Hin.
  repeat (destruct Hin as [<-|Hin]; [reflexivity|]). now elim Hin.
Qed.

Lemma appends_refl (P : Token.t -> bool) (sc : Scope) : appends P sc sc.
Proof. exists []. now rewrite app_nil_r. Qed.

Lemma appends_trans (P : Token.t -> bool) (a b c : Scope) :
  appends P a b -> appends P b c -> appends P a c.
Proof.
  intros (l1 & E1 & H1) (l2 & E2 & H2). exists (l1 ++ l2). split.
  - now rewrite E2, E1, app_assoc.
  - now rewrite forallb_app, H1, H2.
Qed.

Lemma appends_one (P : Token.t -> bool) (sc : Scope) (tok : Token.t) :
  P tok = true -> appends P sc (push_out sc tok).
Proof. intro H. exists [tok]. simpl. now rewrite H. Qed.

Lemma appends_closeSection (sc : Scope) : appends inserted sc (closeSection sc).
Proof.
  destruct sc as [o so po xo st sw e0]. destruct xo.
  - now exists [Token.new "layout_section_close" "div" (-1)].
  - apply appends_refl.
Qed.

Lemma appends_closePage (sc : Scope) : appends inserted sc (closePage sc).
Proof.
  destruct sc as [o so po xo st sw e0]. destruct po; [|apply appends_refl].
  destruct xo.
  - exists [Token.new "layout_section_close" "div" (-1);
            Token.new "layout_page_close" "div" (-1)].
    split; [|reflexivity]. cbn. now rewrite <- app_assoc.
  - now exists [Token.new "layout_page_close" "div" (-1)].
Qed.

Lemma appends_closeSpread (sc : Scope) : appends inserted sc (closeSpread sc).
Proof.
  destruct sc as [o so po xo st sw e0]. destruct so; [|apply appends_refl].
  eapply appends_trans;
    [apply (appends_closePage (mkScope o true po xo st sw e0))|].
  destruct po, xo;
    now exists [Token.new "layout_spread_close" "div" (-1)].
Qed.

Lemma appends_wrapper (f : Scope -> Scope) (type base kind : string)
      (meta : Meta) (sc : Scope) :
  In type inserted_types ->
  out (f sc) = out sc ++ [wrapper_open type base kind meta] ->
  appends inserted sc (f sc).
Proof.
  intros Hin Hout. exists [wrapper_open type base kind meta].
  split; [exact Hout|]. simpl. rewrite andb_true_r. unfold inserted.
  rewrite wrapper_open_type. apply existsb_exists. exists type.
  split; [exact Hin | apply String.eqb_refl].
Qed.

Lemma appends_openSpread (sc : Scope) (meta : Meta) :
  appends inserted sc (openSpread sc meta).
Proof.
  apply (appends_wrapper (fun sc => openSpread sc meta)
                         "layout_spread_open" "spread" "spread" meta);
    [simpl; tauto | reflexivity].
Qed.

Lemma appends_openSection (sc : Scope) (meta : Meta) :
  appends inserted sc (openSection sc meta).
Proof.
  apply (appends_wrapper (fun sc => openSection sc meta)
                         "layout_section_open" "region" "section" meta);
    [simpl; tauto | reflexivity].
Qed.

Lemma openPage_out (options : Options) (sc : Scope) (meta : Meta) :
  out (openPage options sc meta)
  = out sc ++ [wrapper_open "layout_page_open" "page" "page" meta].
Proof.
  destruct sc as [o so po xo st sw e0], options as [ip pp wb].
  destruct so, pp; reflexivity.
Qed.

Lemma appends_openPage (options : Options) (sc : Scope) (meta : Meta) :
  appends inserted sc (openPage options sc meta).
Proof.
  apply (appends_wrapper (fun sc => openPage options sc meta)
                         "layout_page_open" "page" "page" meta);
    [simpl; tauto | apply openPage_out].
Qed.

Lemma appends_warn (P : Token.t -> bool) (sc : Scope) (line : Z)
      (type message : string) (marker : option Meta) :
  appends P sc (warn_sc sc line type message marker).
Proof. exists []. split; [|reflexivity]. simpl. now rewrite app_nil_r. Qed.

Lemma appends_laws (options : Options) :
  StepLaws options (appends inserted) (fun _ => true).
Proof.
  constructor; intros;
    auto using appends_refl, appends_closeSection, appends_closePage,
      appends_closeSpread, appends_openSpread, appends_openPage,
      appends_openSection, appends_warn.
  - eapply appends_trans; eassumption.
  - now apply appends_one.
Qed.

(** A marker step and the end of the document add created tokens only. *)
Lemma marker_appends_inserted (options : Options) (sc : Scope)
      (tok : Token.t) :
  is_content tok = false -> appends inserted sc (visit options sc tok).
Proof. apply (step_marker _ _ _ (appends_laws options)). Qed.

Lemma eof_appends_inserted (sc : Scope) : appends inserted sc (at_eof sc).
Proof. apply (step_at_eof _ _ _ (appends_laws default_options)). Qed.

End CreatedTokens.

(** ** Runs without markers, and runs on the output of a run *)

Section PassThrough.

Import Output.

Lemma content_passes (options : Options) (toks : list Token.t) (e : Env) :
  forallb is_content toks = true ->
  layout_transform options (mkCore toks e) = mkCore toks e.
Proof.
  intro H. unfold layout_transform. simpl.
  destruct (__layoutMarkersUsed e); [|reflexivity]. simpl.
  rewrite (loop_content options toks _ H). reflexivity.
Qed.

(** No marker among the tokens: the core rule changes neither the tokens nor
    the environment, whether the block rule raised the flag or not. *)
Theorem no_marker_no_change (options : Options) (toks : list Token.t)
        (e : Env) :
  forallb is_content toks = true ->
  layout_transform options (mkCore toks e) = mkCore toks e.
Proof. apply content_passes. Qed.

Lemma no_marker_no_change_witness :
  layout_transform default_options
                   (mkCore (Sample.text "a" ++ Sample.text "b")
                           Sample.fresh_env)
  = mkCore (Sample.text "a" ++ Sample.text "b") Sample.fresh_env.
Proof.
  exact (no_marker_no_change default_options
                             (Sample.text "a" ++ Sample.text "b")
                             Sample.fresh_env eq_refl).
Defined.

Lemma appends_content (a b : Scope) :
  appends is_content a b ->
  forallb is_content (out a) = true -> forallb is_content (out b) = true.
Proof.
  intros (l & E & H) Ha. now rewrite E, forallb_app, Ha, H.
Qed.

Lemma appends_weaken (P Q : Token.t -> bool) (a b : Scope) :
  (forall tok, P tok = true -> Q tok = true) ->
  appends P a b -> appends Q a b.
Proof.
  intros HPQ (l & E & H). exists l. split; [exact E|].
  apply forallb_forall. intros tok Hin. apply HPQ.
  rewrite forallb_forall in H. now apply H.
Qed.

Lemma visit_appends_content (options : Options) (sc : Scope)
      (tok : Token.t) :
  appends is_content sc (visit options sc tok).
Proof.
  destruct (is_content tok) eqn:E.
  - rewrite (visit_content options sc tok E). now apply appends_one.
  - apply (appends_weaken inserted); [apply inserted_is_content|].
    now apply marker_appends_inserted.
Qed.

Lemma loop_appends_content (options : Options) (toks : list Token.t) :
  forall sc, appends is_content sc (fold_left (visit options) toks sc).
Proof.
  induction toks as [|tok toks IH]; intro sc; simpl; [apply appends_refl|].
  eapply appends_trans; [apply visit_appends_content | apply IH].
Qed.

(** The markers are transformed away: no marker token is left in the output
    of a run that the flag let through. *)
Lemma output_has_no_marker (options : Options) (toks : list Token.t)
      (e : Env) :
  __layoutMarkersUsed e = true ->
  forallb is_content (tokens (layout_transform options (mkCore toks e)))
  = true.
Proof.
  intro Hu. unfold layout_transform. simpl. rewrite Hu. simpl.
  apply (appends_content (initial_scope e)); [|reflexivity].
  eapply appends_trans; [apply loop_appends_content|].
  apply (appends_weaken inserted); [apply inserted_is_content|].
  apply eof_appends_inserted.
Qed.

(** The core rule is idempotent: run on its own result, under any options,
    it changes neither the tokens nor the diagnostics. *)
Theorem transform_idempotent (options options' : Options)
        (state : CoreState) :
  layout_transform options' (layout_transform options state)
  = layout_transform options state.
Proof.
  destruct state as [toks e].
  destruct (__layoutMarkersUsed e) eqn:Hu.
  - pose proof (output_has_no_marker options toks e Hu) as H.
    destruct (layout_transform options (mkCore toks e)) as [toks' e'].
    now apply content_passes.
  - unfold layout_transform. simpl. rewrite Hu. simpl. now rewrite Hu.
Qed.

Lemma filter_foreign_inserted (l : list Token.t) :
  forallb inserted l = true -> filter foreign l = [].
Proof.
  induction l as [|tok l IH]; simpl; [reflexivity|].
  intro H. apply andb_true_iff in H. destruct H as [Ht Hl].
  unfold foreign at 1. rewrite Ht. simpl. now apply IH.
Qed.

Lemma appends_keeps_foreign (a b : Scope) :
  appends inserted a b -> filter foreign (out b) = filter foreign (out a).
Proof.
  intros (l & E & H). rewrite E, filter_app, (filter_foreign_inserted l H).
  apply app_nil_r.
Qed.

Lemma loop_keeps_foreign (options : Options) (toks : list Token.t) :
  forall sc,
    forallb foreign toks = true ->
    filter foreign (out (fold_left (visit options) toks sc))
    = filter foreign (out sc) ++ filter is_content toks.
Proof.
  induction toks as [|tok toks IH]; intros sc H; simpl.
  - now rewrite app_nil_r.
  - simpl in H. apply andb_true_iff in H. destruct H as [Ht Hr].
    rewrite (IH _ Hr). destruct (is_content tok) eqn:E.
    + rewrite (visit_content options sc tok E). unfold push_out. simpl.
      rewrite filter_app. simpl. rewrite Ht. now rewrite <- app_assoc.
    + now rewrite (appends_keeps_foreign _ _
                     (marker_appends_inserted options sc tok E)).
Qed.

(** The content survives in its order: with the created tokens taken out of
    the output, what is left is the input without its markers, provided no
    input token bears one of the seven created types. *)
Theorem content_is_preserved (options : Options) (toks : list Token.t)
        (e : Env) :
  __layoutMarkersUsed e = true ->
  forallb foreign toks = true ->
  filter foreign (tokens (layout_transform options (mkCore toks e)))
  = filter is_content toks.
Proof.
  intros Hu H. unfold layout_transform. simpl. rewrite Hu. simpl.
  rewrite (appends_keeps_foreign _ _ (eof_appends_inserted _)).
  now rewrite (loop_keeps_foreign options toks _ H).
Qed.

Lemma content_is_preserved_witness :
  filter foreign
         (tokens (layout_transform default_options
                                   (mkCore ScenarioD.input Sample.fresh_env)))
  = filter is_content ScenarioD.input.
Proof.
  exact (content_is_preserved default_options ScenarioD.input
                              Sample.fresh_env eq_refl eq_refl).
Defined.

End PassThrough.

(** ** The flags and the pending wrappers *)

Section Pending.

Import Output.

Lemma depth_after_app (k : string) (l1 l2 : list Token.t) :
  forall d,
    depth_after k d (l1 ++ l2)
    = match depth_after k d l1 with
      | Some d' => depth_after k d' l2
      | None => None
      end.
Proof.
  induction l1 as [|tok l1 IH]; intro d; simpl; [reflexivity|].
  destruct (Wrappers.is_open k tok); [apply IH|].
  destruct (Wrappers.is_close k tok); [|apply IH].
  destruct d; [reflexivity | apply IH].
Qed.

Lemma balanced_from_depth (k : string) (toks : list Token.t) :
  forall d,
    Wrappers.balanced_from k d toks
    = match depth_after k d toks with
      | Some O => true
      | _ => false
      end.
Proof.
  induction toks as [|tok toks IH]; intro d; simpl.
  - now destruct d.
  - destruct (Wrappers.is_open k tok); [apply IH|].
    destruct (Wrappers.is_close k tok); [|apply IH].
    destruct d; [reflexivity | apply IH].
Qed.

Lemma is_open_wrapper (k type base kind : string) (meta : Meta) :
  Wrappers.is_open k (wrapper_open type base kind meta)
  = String.eqb type ("layout_" ++ k ++ "_open")%string.
Proof. unfold Wrappers.is_open. now rewrite wrapper_open_type. Qed.

Lemma is_close_wrapper (k type base kind : string) (meta : Meta) :
  Wrappers.is_close k (wrapper_open type base kind meta)
  = String.eqb type ("layout_" ++ k ++ "_close")%string.
Proof. unfold Wrappers.is_close. now rewrite wrapper_open_type. Qed.

Ltac track_step :=
  unfold keeps_track, flags_track_output, pending; simpl;
  intros (Hs & Hp & Hx);
  rewrite ?depth_after_app, ?Hs, ?Hp, ?Hx; simpl;
  rewrite ?is_open_wrapper, ?is_close_wrapper; simpl;
  repeat split; reflexivity.

Lemma track_closeSection (sc : Scope) : keeps_track sc (closeSection sc).
Proof. destruct sc as [o so po xo st sw e0]. destruct so, po, xo; track_step. Qed.

Lemma track_closePage (sc : Scope) : keeps_track sc (closePage sc).
Proof. destruct sc as [o so po xo st sw e0]. destruct so, po, xo; track_step. Qed.

Lemma track_closeSpread (sc : Scope) : keeps_track sc (closeSpread sc).
Proof. destruct sc as [o so po xo st sw e0]. destruct so, po, xo; track_step. Qed.

Lemma track_openSpread (sc : Scope) (meta : Meta) :
  spreadOpen sc = false -> keeps_track sc (openSpread sc meta).
Proof.
  destruct sc as [o so po xo st sw e0]. simpl. intros ->.
  destruct po, xo; track_step.
Qed.

Lemma track_openPage (options : Options) (sc : Scope) (meta : Meta) :
  pageOpen sc = false -> keeps_track sc (openPage options sc meta).
Proof.
  destruct sc as [o so po xo st sw e0], options as [ip pp wb].
  simpl. intros ->. destruct so, xo, pp; track_step.
Qed.

Lemma track_openSection (sc : Scope) (meta : Meta) :
  sectionOpen sc = false -> keeps_track sc (openSection sc meta).
Proof.
  destruct sc as [o so po xo st sw e0]. simpl. intros ->.
  destruct so, po; track_step.
Qed.

Lemma track_break (sc : Scope) : keeps_track sc (push_out sc break_token).
Proof. destruct sc as [o so po xo st sw e0]. destruct so, po, xo; track_step. Qed.

Lemma track_laws (options : Options) :
  StepLaws options keeps_track (fun _ => true).
Proof.
  constructor.
  - intros sc H. exact H.
  - intros a b c Hab Hbc H. auto.
  - apply track_closeSection.
  - apply track_closePage.
  - apply track_closeSpread.
  - apply track_openSpread.
  - apply track_openPage.
  - intros sc meta H _. now apply track_openSection.
  - apply track_break.
  - intros sc line type message marker _ H. exact H.
  - reflexivity.
Qed.

Lemma foreign_not_wrapper (k : string) (tok : Token.t) :
  In k Wrappers.wrapper_kinds ->
  foreign tok = true ->
  Wrappers.is_open k tok = false /\ Wrappers.is_close k tok = false.
Proof.
  unfold foreign, inserted, Wrappers.is_open, Wrappers.is_close.
  intros Hk H. apply negb_true_iff in H.
  simpl in H. repeat (apply orb_false_iff in H; destruct H as [? H]).
  simpl in Hk. destruct Hk as [<-|[<-|[<-|[]]]]; now split.
Qed.

Lemma track_content (sc : Scope) (tok : Token.t) :
  is_content tok = true -> foreign tok = true ->
  keeps_track sc (push_out sc tok).
Proof.
  intros _ Hf. unfold keeps_track, flags_track_output. simpl.
  intros (Hs & Hp & Hx). rewrite !depth_after_app, Hs, Hp, Hx.
  unfold pending. simpl.
  destruct (foreign_not_wrapper "spread" tok) as [-> ->];
    [simpl; tauto | exact Hf |].
  destruct (foreign_not_wrapper "page" tok) as [-> ->];
    [simpl; tauto | exact Hf |].
  destruct (foreign_not_wrapper "section" tok) as [-> ->];
    [simpl; tauto | exact Hf |].
  repeat split.
Qed.

Lemma forallb_foreign_ok (toks : list Token.t) :
  forallb foreign toks = true ->
  forallb (fun tok => negb (is_content tok) || foreign tok) toks = true.
Proof.
  intro H. apply forallb_forall. intros tok Hin.
  rewrite forallb_forall in H. rewrite (H tok Hin). apply orb_true_r.
Qed.

Lemma loop_tracks (options : Options) (toks : list Token.t) (e : Env) :
  forallb foreign toks = true ->
  flags_track_output (after_loop options toks e).
Proof.
  intro H. unfold after_loop.
  apply (step_loop options keeps_track (fun _ => true) (track_laws options)
                   foreign track_content toks (initial_scope e)
                   (forallb_foreign_ok toks H)).
  repeat split.
Qed.

(** After any input whose tokens bear none of the created types, the three
    flags say what is pending in the output so far: at most one wrapper of a
    kind is open at a time, and no close token came without its open. *)
Theorem flags_track_the_output (options : Options) (toks : list Token.t)
        (e : Env) :
  forallb foreign toks = true ->
  flags_track_output (after_loop options toks e).
Proof. apply loop_tracks. Qed.

Lemma flags_track_the_output_witness :
  flags_track_output
    (after_loop default_options
                (Sample.marker "@page a" 0 ++ Sample.marker "@page b" 1)
                Sample.fresh_env).
Proof.
  exact (flags_track_the_output
           default_options
           (Sample.marker "@page a" 0 ++ Sample.marker "@page b" 1)
           Sample.fresh_env eq_refl).
Defined.

(** In the output of a run the spread wrappers are always balanced; the page
    and the section wrappers are balanced exactly when the end of the
    document left no page, no section open. *)
Theorem spread_wrappers_are_balanced (options : Options)
        (toks : list Token.t) (e : Env) :
  __layoutMarkersUsed e = true ->
  forallb foreign toks = true ->
  let final := at_eof (after_loop options toks e) in
  let output := tokens (layout_transform options (mkCore toks e)) in
  Wrappers.balanced "spread" output = true
  /\ Wrappers.balanced "page" output = negb (pageOpen final)
  /\ Wrappers.balanced "section" output = negb (sectionOpen final).
Proof.
  intros Hu H final output.
  assert (Hout : output = out final).
  { unfold output, layout_transform. simpl. now rewrite Hu. }
  assert (Ht : flags_track_output final).
  { apply (step_at_eof options keeps_track (fun _ => true)
                       (track_laws options)).
    now apply loop_tracks. }
  assert (Hs : spreadOpen final = false).
  { unfold final, at_eof. apply closeSpread_closes. }
  destruct Ht as (Ts & Tp & Tx). rewrite Hout.
  unfold Wrappers.balanced. rewrite !balanced_from_depth, Ts, Tp, Tx, Hs.
  unfold pending. simpl.
  repeat split; [now destruct (pageOpen final)
                | now destruct (sectionOpen final)].
Qed.

Lemma spread_wrappers_are_balanced_witness :
  Wrappers.balanced "spread"
    (tokens (layout_transform
               default_options
               (mkCore (Sample.marker "@page a" 0 ++ Sample.marker "@spread b" 1)
                       Sample.fresh_env)))
  = true.
Proof.
  exact (proj1 (spread_wrappers_are_balanced
                  default_options
                  (Sample.marker "@page a" 0 ++ Sample.marker "@spread b" 1)
                  Sample.fresh_env eq_refl eq_refl)).
Defined.

End Pending.

(** ** The notes on the current spread *)

Section SpreadNotes.

Import Output.

Ltac notes_step :=
  unfold keeps_notes, spread_notes_agree; simpl;
  intros [H1 H2]; split;
  [ try reflexivity; try exact H1; try discriminate
  | try (intros _; reflexivity); try exact H2; try discriminate ].

Lemma notes_closeSection (sc : Scope) : keeps_notes sc (closeSection sc).
Proof.
  destruct sc as [o so po xo st sw e0]. destruct xo; notes_step.
Qed.

Lemma notes_closePage (sc : Scope) : keeps_notes sc (closePage sc).
Proof.
  destruct sc as [o so po xo st sw e0]. destruct po, xo; notes_step.
Qed.

Lemma notes_closeSpread (sc : Scope) : keeps_notes sc (closeSpread sc).
Proof.
  destruct sc as [o so po xo st sw e0]. destruct so, po, xo; notes_step.
Qed.

Lemma notes_openSpread (sc : Scope) (meta : Meta) :
  keeps_notes sc (openSpread sc meta).
Proof. destruct sc as [o so po xo st sw e0]. notes_step. Qed.

Lemma notes_openPage (options : Options) (sc : Scope) (meta : Meta) :
  keeps_notes sc (openPage options sc meta).
Proof.
  destruct sc as [o so po xo st sw e0], options as [ip pp wb].
  destruct so, pp; notes_step.
Qed.

Lemma notes_openSection (sc : Scope) (meta : Meta) :
  keeps_notes sc (openSection sc meta).
Proof. destruct sc as [o so po xo st sw e0]. notes_step. Qed.

Lemma notes_laws (options : Options) :
  StepLaws options keeps_notes (fun _ => true).
Proof.
  constructor.
  - intros sc H. exact H.
  - intros a b c Hab Hbc H. auto.
  - apply notes_closeSection.
  - apply notes_closePage.
  - apply notes_closeSpread.
  - intros sc meta _. apply notes_openSpread.
  - intros sc meta _. apply notes_openPage.
  - intros sc meta _ _. apply notes_openSection.
  - intros sc H. exact H.
  - intros sc line type message marker _ H. exact H.
  - reflexivity.
Qed.

(** The two notes kept on the current spread are one note: after any input,
    [spreadStartedWithNoPagesYet] is up exactly when a spread is open and
    [sawAnyPageInsideCurrentSpread] is down, and the latter is up only while
    a spread is open. *)
Theorem spread_notes_are_complementary (options : Options)
        (toks : list Token.t) (e : Env) :
  spread_notes_agree (after_loop options toks e).
Proof.
  unfold after_loop.
  apply (step_loop options keeps_notes (fun _ => true) (notes_laws options)
                   (fun _ => true)).
  - intros sc tok _ _ H. exact H.
  - apply forallb_forall. intros tok _. apply orb_true_r.
  - split; [reflexivity | discriminate].
Qed.

End SpreadNotes.

(** ** The diagnostics a run may record *)

Section Recorded.

Import Output.

Lemma record_all_app (e : Env) (ds1 ds2 : list Diag.t) :
  record_all (record_all e ds1) ds2 = record_all e (ds1 ++ ds2).
Proof. unfold record_all. now rewrite fold_left_app. Qed.

Lemma records_refl (P : Diag.t -> bool) (sc : Scope) : records P sc sc.
Proof. now exists []. Qed.

Lemma records_trans (P : Diag.t -> bool) (a b c : Scope) :
  records P a b -> records P b c -> records P a c.
Proof.
  intros (d1 & E1 & H1) (d2 & E2 & H2). exists (d1 ++ d2). split.
  - now rewrite E2, E1, record_all_app.
  - now rewrite forallb_app, H1, H2.
Qed.

Lemma records_same_env (P : Diag.t -> bool) (a b : Scope) :
  env b = env a -> records P a b.
Proof. intro E. exists []. now split. Qed.

Lemma records_openPage (options : Options) (sc : Scope) (meta : Meta) :
  records (allowed options) sc (openPage options sc meta).
Proof.
  destruct sc as [o so po xo st sw e0], options as [ip pp wb].
  destruct so; [now apply records_same_env|].
  destruct pp; [|now apply records_same_env].
  exists [Diag.mk (line_of meta) "page_outside_spread"
                  Msg.page_outside_spread (Some meta)].
  split; [reflexivity|]. now destruct ip, wb.
Qed.

Lemma records_laws (options : Options) :
  StepLaws options (records (allowed options))
           (fun type => existsb (String.eqb type) (allowed_types options)).
Proof.
  constructor.
  - apply records_refl.
  - apply records_trans.
  - intro sc. apply records_same_env.
    destruct sc as [o so po xo st sw e0]. now destruct xo.
  - intro sc. apply records_same_env.
    destruct sc as [o so po xo st sw e0]. now destruct po, xo.
  - intro sc. apply records_same_env.
    destruct sc as [o so po xo st sw e0]. now destruct so, po, xo.
  - intros sc meta _. now apply records_same_env.
  - intros sc meta _. apply records_openPage.
  - intros sc meta _ _. now apply records_same_env.
  - intro sc. now apply records_same_env.
  - intros sc line type message marker H.
    exists [Diag.mk line type message marker]. split; [reflexivity|].
    cbv beta in H. cbn [forallb]. unfold allowed. cbn [Diag.type].
    now rewrite H.
  - intros type Hin. apply existsb_exists. exists type.
    split; [exact Hin | apply String.eqb_refl].
Qed.

(** A run records diagnostics of the types its options let through and of no
    other: [implicit_page] only with [implicitPage] on and
    [section_without_page] only with it off, [page_outside_spread] only with
    [preferPagesInSpreads], [break_without_scope] only with
    [warnOnBreakWithoutScope]; the diagnostics the environment held stay in
    front, untouched. *)
Theorem diagnostics_follow_the_options (options : Options)
        (toks : list Token.t) (e : Env) :
  exists ds,
    core_env (layout_transform options (mkCore toks e)) = record_all e ds
    /\ forallb (allowed options) ds = true.
Proof.
  unfold layout_transform. simpl.
  destruct (__layoutMarkersUsed e); [|now exists []]. simpl.
  apply (step_run options (records (allowed options)) _
                  (records_laws options) (fun _ => true)).
  - intros sc tok _ _. now apply records_same_env.
  - apply forallb_forall. intros tok _. apply orb_true_r.
Qed.

End Recorded.

(** ** Sections and their pages *)

Section Paged.

Import Output.

Lemma paged_after_app (l1 l2 : list Token.t) :
  forall p,
    paged_after p (l1 ++ l2)
    = match paged_after p l1 with
      | Some p' => paged_after p' l2
      | None => None
      end.
Proof.
  induction l1 as [|tok l1 IH]; intro p; simpl; [reflexivity|].
  destruct (Wrappers.is_open "page" tok); [apply IH|].
  destruct (Wrappers.is_close "page" tok).
  { destruct p; [reflexivity | apply IH]. }
  destruct (Wrappers.is_open "section" tok); [|apply IH].
  destruct p; [reflexivity | apply IH].
Qed.

Ltac paged_step :=
  unfold keeps_paged, sections_are_paged, pending; simpl;
  intros [Hp Hx];
  rewrite ?paged_after_app, ?Hp; simpl;
  rewrite ?is_open_wrapper, ?is_close_wrapper; simpl;
  split; [reflexivity | try reflexivity; try exact Hx; try discriminate].

Lemma paged_closeSection (sc : Scope) : keeps_paged sc (closeSection sc).
Proof. destruct sc as [o so po xo st sw e0]. destruct po, xo; paged_step. Qed.

Lemma paged_closePage (sc : Scope) : keeps_paged sc (closePage sc).
Proof. destruct sc as [o so po xo st sw e0]. destruct po, xo; paged_step. Qed.

Lemma paged_closeSpread (sc : Scope) : keeps_paged sc (closeSpread sc).
Proof.
  destruct sc as [o so po xo st sw e0]. destruct so, po, xo; paged_step.
Qed.

Lemma paged_openSpread (sc : Scope) (meta : Meta) :
  keeps_paged sc (openSpread sc meta).
Proof. destruct sc as [o so po xo st sw e0]. destruct po; paged_step. Qed.

Lemma paged_openPage (options : Options) (sc : Scope) (meta : Meta) :
  pageOpen sc = false -> keeps_paged sc (openPage options sc meta).
Proof.
  destruct sc as [o so po xo st sw e0], options as [ip pp wb].
  simpl. intros ->. destruct so, pp; paged_step.
Qed.

Lemma paged_openSection (sc : Scope) (meta : Meta) :
  pageOpen sc = true -> keeps_paged sc (openSection sc meta).
Proof.
  destruct sc as [o so po xo st sw e0]. simpl. intros ->. paged_step.
Qed.

Lemma paged_break (sc : Scope) : keeps_paged sc (push_out sc break_token).
Proof. destruct sc as [o so po xo st sw e0]. destruct po; paged_step. Qed.

Lemma paged_laws (options : Options) :
  implicitPage options = true ->
  StepLaws options keeps_paged (fun _ => true).
Proof.
  intro Hi. constructor.
  - intros sc H. exact H.
  - intros a b c Hab Hbc H. auto.
  - apply paged_closeSection.
  - apply paged_closePage.
  - apply paged_closeSpread.
  - intros sc meta _. apply paged_openSpread.
  - apply paged_openPage.
  - intros sc meta _ Hp. apply paged_openSection. now apply Hp.
  - apply paged_break.
  - intros sc line type message marker _ H. exact H.
  - reflexivity.
Qed.

Lemma paged_content (sc : Scope) (tok : Token.t) :
  is_content tok = true -> foreign tok = true ->
  keeps_paged sc (push_out sc tok).
Proof.
  intros _ Hf. unfold keeps_paged, sections_are_paged. simpl.
  intros [Hp Hx]. split; [|exact Hx].
  rewrite paged_after_app, Hp. unfold pending. simpl.
  destruct (foreign_not_wrapper "page" tok) as [-> ->];
    [simpl; tauto | exact Hf |].
  destruct (foreign_not_wrapper "section" tok) as [-> _];
    [simpl; tauto | exact Hf |].
  reflexivity.
Qed.

(** With [implicitPage] on, every region is wrapped in a page: in the output
    each section open token comes while a page wrapper is open, and a section
    is never left open without its page, whatever the markers of the input
    (whose tokens bear none of the created types). *)
Theorem implicit_page_wraps_every_section (options : Options)
        (toks : list Token.t) (e : Env) :
  implicitPage options = true ->
  __layoutMarkersUsed e = true ->
  forallb foreign toks = true ->
  sections_inside_pages
    (tokens (layout_transform options (mkCore toks e))) = true
  /\ (sectionOpen (after_loop options toks e) = true ->
      pageOpen (after_loop options toks e) = true).
Proof.
  intros Hi Hu H.
  assert (L : sections_are_paged (after_loop options toks e)).
  { unfold after_loop.
    apply (step_loop options keeps_paged (fun _ => true)
                     (paged_laws options Hi) foreign paged_content toks
                     (initial_scope e) (forallb_foreign_ok toks H)).
    split; [reflexivity | discriminate]. }
  split; [|exact (proj2 L)].
  assert (F : sections_are_paged (at_eof (after_loop options toks e))).
  { now apply (step_at_eof options keeps_paged (fun _ => true)
                           (paged_laws options Hi)). }
  unfold layout_transform. simpl. rewrite Hu. simpl.
  unfold sections_inside_pages. fold (after_loop options toks e).
  now rewrite (proj1 F).
Qed.

Lemma implicit_page_wraps_every_section_witness :
  sections_inside_pages
    (tokens (layout_transform
               default_options
               (mkCore (Sample.marker "@spread s" 0
                          ++ Sample.marker "@section a" 1
                          ++ Sample.marker "@break" 2
                          ++ Sample.marker "@section b" 3)
                       Sample.fresh_env)))
  = true.
Proof.
  exact (proj1 (implicit_page_wraps_every_section
                  default_options
                  (Sample.marker "@spread s" 0
                     ++ Sample.marker "@section a" 1
                     ++ Sample.marker "@break" 2
                     ++ Sample.marker "@section b" 3)
                  Sample.fresh_env eq_refl eq_refl eq_refl)).
Defined.

(** With [implicitPage] off the wrapping is lost: a bare section opens
    outside any page. *)
Example explicit_pages_leave_sections_bare :
  sections_inside_pages
    (tokens (Sample.run (mkOptions false false true)
                        (Sample.marker "@section a" 0)))
  = false.
Proof. reflexivity. Qed.

End Paged.

(** * Further properties of the marker line parser *)

Local Open Scope string_scope.

Section Trimming.

Import Words.

Lemma trimStart_blank (pre s : string) :
  blank pre = true -> trimStart (pre ++ s) = trimStart s.
Proof.
  induction pre as [|ch pre IH]; simpl; [reflexivity|].
  intro H. apply andb_true_iff in H. destruct H as [Hc Hp].
  rewrite Hc. now apply IH.
Qed.

Lemma trimEnd_blank_only (post : string) :
  blank post = true -> trimEnd post = "".
Proof.
  induction post as [|ch post IH]; simpl; [reflexivity|].
  intro H. apply andb_true_iff in H. destruct H as [Hc Hp].
  rewrite (IH Hp), Hc. reflexivity.
Qed.

Lemma trimEnd_blank (s post : string) :
  blank post = true -> trimEnd (s ++ post) = trimEnd s.
Proof.
  intro H. induction s as [|ch s IH]; simpl.
  - now apply trimEnd_blank_only.
  - now rewrite IH.
Qed.

Lemma trimStart_blank_only (post : string) :
  blank post = true -> trimStart post = "".
Proof.
  induction post as [|ch post IH]; simpl; [reflexivity|].
  intro H. apply andb_true_iff in H. destruct H as [Hc Hp].
  rewrite Hc. now apply IH.
Qed.

Lemma trim_blank_end (s post : string) :
  blank post = true -> trimEnd (trimStart (s ++ post)) = trimEnd (trimStart s).
Proof.
  intro H. induction s as [|ch s IH]; simpl.
  - now rewrite (trimStart_blank_only post H).
  - destruct (is_space ch); [exact IH|].
    change (String ch (s ++ post)) with (String ch s ++ post).
    now apply trimEnd_blank.
Qed.

Lemma trim_blank (pre s post : string) :
  blank pre = true -> blank post = true -> trim (pre ++ s ++ post) = trim s.
Proof.
  intros Hpre Hpost. unfold trim. rewrite (trimStart_blank pre _ Hpre).
  now apply trim_blank_end.
Qed.

(** The white space around a line does not count: a line parses as it does
    without its indentation and its trailing white space. *)
Theorem surrounding_space_is_ignored (pre line post : string) :
  blank pre = true -> blank post = true ->
  parseMarkerLine (pre ++ line ++ post) = parseMarkerLine line.
Proof.
  intros Hpre Hpost. unfold parseMarkerLine.
  now rewrite (trim_blank pre line post Hpre Hpost).
Qed.

Lemma surrounding_space_is_ignored_witness :
  parseMarkerLine ("  " ++ "@page p" ++ " ") = parseMarkerLine "@page p".
Proof.
  exact (surrounding_space_is_ignored "  " "@page p" " " eq_refl eq_refl).
Defined.

End Trimming.

Section Tokens.

Import Words.

Lemma scan_tokens_truthy (s : string) :
  forall tokens buf quote,
    forallb truthy tokens = true ->
    forallb truthy (fst (scan s tokens buf quote)) = true.
Proof.
  induction s as [|ch s IH]; intros tokens buf quote H; simpl; [exact H|].
  destruct quote as [q|].
  - destruct (Ascii.eqb ch q); now apply IH.
  - destruct (Ascii.eqb ch dquote || Ascii.eqb ch squote); [now apply IH|].
    destruct (is_space ch); [|now apply IH].
    apply IH. destruct (truthy buf) eqn:E; [|exact H].
    rewrite forallb_app, H. simpl. now rewrite E.
Qed.

(** No token is empty: an empty quoted span or a run of white space leaves
    no token behind. *)
Lemma tokens_are_not_empty (s : string) : forallb truthy (tokenize s) = true.
Proof.
  unfold tokenize.
  pose proof (scan_tokens_truthy s [] "" None eq_refl) as H.
  destruct (scan s [] "" None) as [tokens buf]. simpl in H.
  destruct (truthy buf) eqn:E; [|exact H].
  rewrite forallb_app, H. simpl. now rewrite E.
Qed.

Lemma plain_char_inv (ch : ascii) :
  plain_char ch = true ->
  is_space ch = false /\ Ascii.eqb ch dquote || Ascii.eqb ch squote = false.
Proof.
  unfold plain_char. intro H. apply andb_true_iff in H.
  destruct H as [H1 H2]. now rewrite negb_true_iff in H1, H2.
Qed.

(** Outside quotes a run of plain characters joins the buffer. *)
Lemma scan_plain (w rest : string) :
  forall tokens buf,
    plain_chars w = true ->
    scan (w ++ rest) tokens buf None = scan rest tokens (buf ++ w) None.
Proof.
  induction w as [|ch w IH]; intros tokens buf H; simpl.
  - now rewrite append_empty_r.
  - simpl in H. apply andb_true_iff in H. destruct H as [Hc Hw].
    destruct (plain_char_inv ch Hc) as [Hs Hq]. rewrite Hq, Hs.
    rewrite (IH _ _ Hw). now rewrite push_char_append.
Qed.

Lemma scan_joined (ws : list string) :
  forall tokens,
    forallb plain ws = true ->
    scan (join_space ws) tokens "" None
    = ((tokens ++ removelast ws)%list, last ws "").
Proof.
  induction ws as [|w ws IH]; intros tokens H.
  - simpl. now rewrite app_nil_r.
  - simpl in H. apply andb_true_iff in H. destruct H as [Hw Hr].
    unfold plain in Hw. apply andb_true_iff in Hw. destruct Hw as [Ht Hp].
    destruct ws as [|w' ws].
    + simpl. rewrite <- (append_empty_r w) at 1.
      rewrite (scan_plain w "" tokens "" Hp). simpl.
      now rewrite app_nil_r.
    + change (join_space (w :: w' :: ws))
        with (w ++ String " " (join_space (w' :: ws))).
      rewrite (scan_plain w _ tokens "" Hp).
      rewrite (scan_space " " _ tokens _ eq_refl).
      change ("" ++ w) with w. rewrite Ht.
      rewrite (IH _ Hr).
      change (removelast (w :: w' :: ws))
        with (w :: removelast (w' :: ws)).
      change (last (w :: w' :: ws) "") with (last (w' :: ws) "").
      now rewrite <- app_assoc.
Qed.

Lemma last_plain_truthy (ws : list string) :
  ws <> [] -> forallb plain ws = true -> truthy (last ws "") = true.
Proof.
  induction ws as [|w ws IH]; intros Hne H; [now elim Hne|].
  simpl in H. apply andb_true_iff in H. destruct H as [Hw Hr].
  destruct ws as [|w' ws].
  - simpl. unfold plain in Hw. now apply andb_true_iff in Hw.
  - apply IH; [discriminate | exact Hr].
Qed.

Lemma tokenize_joined (ws : list string) :
  forallb plain ws = true -> tokenize (join_space ws) = ws.
Proof.
  intro H. unfold tokenize. rewrite (scan_joined ws [] H). simpl.
  destruct ws as [|w ws]; [reflexivity|].
  rewrite (last_plain_truthy (w :: ws)); [|discriminate | exact H].
  symmetry. apply app_removelast_last. discriminate.
Qed.

(** The tokenizer undoes [join(' ')]: plain words joined by single spaces
    come back as the tokens, in their order. *)
Theorem tokenize_joined_words (ws : list string) :
  forallb plain ws = true -> tokenize (join_space ws) = ws.
Proof. apply tokenize_joined. Qed.

Lemma tokenize_joined_words_witness :
  tokenize (join_space ["@page"; "left"; "template=a"; ".wide"])
  = ["@page"; "left"; "template=a"; ".wide"].
Proof.
  exact (tokenize_joined_words ["@page"; "left"; "template=a"; ".wide"]
                               eq_refl).
Defined.

Lemma concat_all_app (l1 l2 : list string) :
  concat_all (l1 ++ l2) = concat_all l1 ++ concat_all l2.
Proof.
  induction l1 as [|x l1 IH]; simpl; [reflexivity|].
  now rewrite IH, append_assoc.
Qed.

Lemma scan_keeps_characters (s : string) :
  forall tokens buf,
    Reading.quote_free s = true ->
    concat_all (fst (scan s tokens buf None)) ++ snd (scan s tokens buf None)
    = concat_all tokens ++ buf ++ without_spaces s.
Proof.
  induction s as [|ch s IH]; intros tokens buf H; simpl.
  - now rewrite append_empty_r.
  - simpl in H. apply andb_true_iff in H. destruct H as [Hq Hr].
    apply negb_true_iff in Hq. rewrite Hq.
    destruct (is_space ch).
    + rewrite (IH _ _ Hr). simpl.
      destruct (truthy buf) eqn:E.
      * rewrite concat_all_app. simpl.
        now rewrite append_empty_r, append_assoc.
      * destruct buf; [reflexivity | discriminate E].
    + rewrite (IH _ _ Hr). now rewrite push_char_append.
Qed.

(** On a line without quotes the tokenizer drops white space and nothing
    else: the tokens, one after the other, are the line without its white
    space. *)
Theorem tokenizer_drops_only_space (s : string) :
  Reading.quote_free s = true ->
  concat_all (tokenize s) = without_spaces s.
Proof.
  intro H. unfold tokenize.
  pose proof (scan_keeps_characters s [] "" H) as K.
  destruct (scan s [] "" None) as [tokens buf]. simpl in K.
  destruct (truthy buf) eqn:E.
  - rewrite concat_all_app. simpl. now rewrite append_empty_r.
  - destruct buf; [|discriminate E]. now rewrite append_empty_r in K.
Qed.

Lemma tokenizer_drops_only_space_witness :
  concat_all (tokenize "@page   a=b  .c ") = without_spaces "@page   a=b  .c ".
Proof. exact (tokenizer_drops_only_space "@page   a=b  .c " eq_refl). Defined.

End Tokens.

Section RoundTrip.

Import Words.

Lemma trimEnd_plain (w : string) : plain_chars w = true -> trimEnd w = w.
Proof.
  induction w as [|ch w IH]; simpl; [reflexivity|].
  intro H. apply andb_true_iff in H. destruct H as [Hc Hw].
  destruct (plain_char_inv ch Hc) as [Hs _]. rewrite Hs. simpl.
  now rewrite (IH Hw).
Qed.

Lemma trim_plain (w : string) : plain_chars w = true -> trim w = w.
Proof.
  intro H. unfold trim.
  assert (E : trimStart w = w).
  { destruct w as [|ch w]; [reflexivity|]. simpl in *.
    apply andb_true_iff in H. destruct H as [Hc _].
    destruct (plain_char_inv ch Hc) as [Hs _]. now rewrite Hs. }
  rewrite E. now apply trimEnd_plain.
Qed.







Lemma plain_chars_of (w : string) : plain w = true -> plain_chars w = true.
Proof. unfold plain. intro H. now apply andb_true_iff in H. Qed.

Lemma plain_truthy (w : string) : plain w = true -> truthy w = true.
Proof. unfold plain. intro H. now apply andb_true_iff in H. Qed.




End RoundTrip.

Section ClassLists.

Import Words.








End ClassLists.

(** * Further properties of the attributes *)

Local Open Scope list_scope.

Section AttributeFacts.

Import Rendered.

Lemma attrSet_list (tok : Token.t) (n v : string) :
  attr_list (Token.attrSet tok n v)
  = JsObject.replace_or_append (attr_list tok) n v.
Proof.
  unfold attr_list, Token.attrSet. simpl.
  generalize (match Token.attrs tok with Some l => l | None => [] end).
  intro l. induction l as [|[k0 v0] l IH]; simpl; [reflexivity|].
  destruct (String.eqb k0 n) eqn:E.
  - apply String.eqb_eq in E. now subst.
  - destruct (Token.replace_first l n v) as [l'|]; simpl in *;
      now rewrite <- IH.
Qed.

Lemma attrGet_set_same (tok : Token.t) (n v : string) :
  attrGet (Token.attrSet tok n v) n = Some v.
Proof. unfold attrGet. rewrite attrSet_list. apply get_replace_same. Qed.

Lemma attrGet_set_other (tok : Token.t) (n v n' : string) :
  n <> n' -> attrGet (Token.attrSet tok n v) n' = attrGet tok n'.
Proof.
  intro H. unfold attrGet. rewrite attrSet_list.
  now apply get_replace_other.
Qed.

Lemma replace_values_truthy (l : list (string * string)) (n v : string) :
  truthy v = true ->
  forallb (fun nv => truthy (snd nv)) l = true ->
  forallb (fun nv => truthy (snd nv)) (JsObject.replace_or_append l n v)
  = true.
Proof.
  intros Hv. induction l as [|[k0 v0] l IH]; simpl; intro H.
  - now rewrite Hv.
  - apply andb_true_iff in H. destruct H as [H0 Hl].
    destruct (String.eqb k0 n); simpl.
    + now rewrite Hv, Hl.
    + now rewrite H0, (IH Hl).
Qed.

Lemma tidy_attrSet (tok : Token.t) (n v : string) :
  truthy v = true ->
  tidy (attr_list tok) -> tidy (attr_list (Token.attrSet tok n v)).
Proof.
  intros Hv [Hn Ht]. rewrite attrSet_list. split.
  - now apply keys_replace_nodup.
  - now apply replace_values_truthy.
Qed.

Lemma get_truthy_inv (o : JsObject.obj) (k v : string) :
  JsObject.get_truthy o k = Some v -> truthy v = true.
Proof.
  unfold JsObject.get_truthy. destruct (JsObject.get o k) as [x|];
    [|discriminate].
  destruct (truthy x) eqn:E; [|discriminate]. now intros [= <-].
Qed.

Lemma tidy_set_if (tok : Token.t) (n : string) (o : JsObject.obj)
      (k : string) :
  tidy (attr_list tok) ->
  tidy (attr_list (Attrs.set_if tok n (JsObject.get_truthy o k))).
Proof.
  intro H. destruct (JsObject.get_truthy o k) as [v|] eqn:E; simpl;
    [|exact H].
  apply tidy_attrSet; [now apply (get_truthy_inv o k) | exact H].
Qed.

Lemma tidy_data_step (tok : Token.t) (kv : string * string) :
  tidy (attr_list tok) -> tidy (attr_list (Attrs.data_step tok kv)).
Proof.
  intro H. destruct kv as [k v]. unfold Attrs.data_step.
  destruct (is_empty v) eqn:E; [exact H|].
  destruct (_ || _); [exact H|].
  apply tidy_attrSet; [|exact H]. unfold truthy. now rewrite E.
Qed.

Lemma tidy_data_loop (l : list (string * string)) :
  forall tok, tidy (attr_list tok) ->
              tidy (attr_list (fold_left Attrs.data_step l tok)).
Proof.
  induction l as [|kv l IH]; intros tok H; simpl; [exact H|].
  apply IH. now apply tidy_data_step.
Qed.

Lemma tidy_addClasses (tok : Token.t) (base extra : string) :
  tidy (attr_list tok) ->
  tidy (attr_list (Attrs.addClasses tok base extra)).
Proof.
  intro H. unfold Attrs.addClasses.
  destruct (truthy (trim _)) eqn:E; [|exact H].
  now apply tidy_attrSet.
Qed.

Lemma tidy_attachDataAttrs (tok : Token.t) (kind : string)
      (name : option string) (attrs : JsObject.obj) :
  tidy (attr_list tok) ->
  tidy (attr_list (Attrs.attachDataAttrs tok kind name attrs)).
Proof.
  intro H. unfold Attrs.attachDataAttrs.
  apply tidy_data_loop. repeat apply tidy_set_if.
  destruct name as [n|]; [|exact H].
  destruct (truthy n) eqn:E; [|exact H].
  destruct (String.eqb kind "spread"), (String.eqb kind "page"),
    (String.eqb kind "section");
    repeat (apply tidy_attrSet; [exact E|]); exact H.
Qed.

(** A wrapper token never has two attributes of one name, nor an attribute
    with an empty value, whatever the marker holds. *)
Theorem wrapper_attributes_are_tidy (type base kind : string) (meta : Meta) :
  NoDup (map fst (attr_list (wrapper_open type base kind meta)))
  /\ forallb (fun nv => truthy (snd nv))
             (attr_list (wrapper_open type base kind meta)) = true.
Proof.
  unfold wrapper_open. apply tidy_attachDataAttrs, tidy_addClasses.
  split; [constructor | reflexivity].
Qed.

End AttributeFacts.

Section PassedAttributes.

Import Rendered.

Lemma data_name_inj (k k' : string) :
  ("data-" ++ k)%string = ("data-" ++ k')%string -> k = k'.
Proof. simpl. now intros [= ->]. Qed.

Lemma set_if_get_other (tok : Token.t) (n : string) (v : option string)
      (n' : string) :
  n <> n' -> attrGet (Attrs.set_if tok n v) n' = attrGet tok n'.
Proof. intro H. destruct v; simpl; [now apply attrGet_set_other | reflexivity]. Qed.

Lemma set_if_get_same (tok : Token.t) (n : string) (v : option string) :
  attrGet (Attrs.set_if tok n v) n
  = match v with Some x => Some x | None => attrGet tok n end.
Proof. destruct v; simpl; [apply attrGet_set_same | reflexivity]. Qed.

(** A round of the loop leaves alone every attribute but the [data-] one of
    its key. *)
Lemma data_step_get_other (tok : Token.t) (k v n : string) :
  n <> ("data-" ++ k)%string ->
  attrGet (Attrs.data_step tok (k, v)) n = attrGet tok n.
Proof.
  intro H. unfold Attrs.data_step.
  destruct (is_empty v); [reflexivity|].
  destruct (_ || _); [reflexivity|].
  apply attrGet_set_other. congruence.
Qed.

Lemma data_step_reserved (tok : Token.t) (k v : string) :
  reserved k = true -> Attrs.data_step tok (k, v) = tok.
Proof.
  unfold reserved, Attrs.data_step. intros ->. now destruct (is_empty v).
Qed.

Lemma data_step_empty (tok : Token.t) (k : string) :
  Attrs.data_step tok (k, "") = tok.
Proof. reflexivity. Qed.

Lemma data_loop_get_other (l : list (string * string)) (n : string) :
  (forall k v, In (k, v) l -> n = ("data-" ++ k)%string ->
               reserved k = true \/ v = ""%string) ->
  forall tok, attrGet (fold_left Attrs.data_step l tok) n = attrGet tok n.
Proof.
  induction l as [|[k v] l IH]; intros H tok; cbn [fold_left];
    [reflexivity|].
  rewrite IH; [|intros k' v' Hin; apply (H k' v'); now right].
  destruct (String.eqb n ("data-" ++ k)%string) eqn:E.
  - apply String.eqb_eq in E.
    destruct (H k v (or_introl eq_refl) E) as [Hr | ->].
    + now rewrite (data_step_reserved tok k v).
    + now rewrite data_step_empty.
  - apply data_step_get_other. now apply String.eqb_neq.
Qed.

Lemma data_loop_get (l : list (string * string)) (k v : string) :
  NoDup (map fst l) ->
  In (k, v) l ->
  truthy v = true ->
  reserved k = false ->
  forall tok,
    attrGet (fold_left Attrs.data_step l tok) ("data-" ++ k)%string = Some v.
Proof.
  induction l as [|[k0 v0] l IH]; intros Hnd Hin Hv Hr tok; [now elim Hin|].
  simpl in Hnd. inversion Hnd as [|? ? Hnin Hnd']; subst.
  cbn [fold_left]. destruct Hin as [Heq|Hin].
  - injection Heq as -> ->.
    rewrite data_loop_get_other.
    + unfold Attrs.data_step. unfold truthy in Hv.
      apply negb_true_iff in Hv. rewrite Hv.
      unfold reserved in Hr. rewrite Hr. apply attrGet_set_same.
    + intros k' v' Hin' E. apply data_name_inj in E. subst k'.
      elim Hnin. apply (in_map fst) in Hin'. exact Hin'.
  - now apply IH.
Qed.

Lemma map_snd_insert (e : N * (string * string))
      (l : list (N * (string * string))) :
  Permutation (map snd (Attrs.insert_by_index e l)) (snd e :: map snd l).
Proof.
  induction l as [|x l IH]; simpl; [reflexivity|].
  destruct (fst e <? fst x)%N; simpl; [reflexivity|].
  rewrite IH. apply perm_swap.
Qed.

(** [Object.entries] lists each property once. *)
Lemma entries_permutation (o : JsObject.obj) :
  Permutation (Attrs.entries o) o.
Proof.
  unfold Attrs.entries, Attrs.index_entries.
  induction o as [|kv o IH]; simpl; [reflexivity|].
  destruct (Attrs.array_index (fst kv)) as [n|]; simpl.
  - rewrite map_snd_insert. simpl. now rewrite IH.
  - rewrite <- Permutation_middle. now rewrite IH.
Qed.

Lemma get_in (o : JsObject.obj) (k v : string) :
  JsObject.get o k = Some v -> In (k, v) o.
Proof.
  induction o as [|[k0 v0] o IH]; simpl; [discriminate|].
  destruct (String.eqb k0 k) eqn:E.
  - apply String.eqb_eq in E. intros [= ->]. left. now subst.
  - intro H. right. now apply IH.
Qed.

Lemma in_get (o : JsObject.obj) (k v : string) :
  NoDup (map fst o) -> In (k, v) o -> JsObject.get o k = Some v.
Proof.
  induction o as [|[k0 v0] o IH]; simpl; intros Hnd Hin; [now elim Hin|].
  inversion Hnd as [|? ? Hnin Hnd']; subst.
  destruct Hin as [[= -> ->]|Hin].
  - now rewrite String.eqb_refl.
  - destruct (String.eqb k0 k) eqn:E; [|now apply IH].
    apply String.eqb_eq in E. subst k0. elim Hnin.
    apply (in_map fst) in Hin. exact Hin.
Qed.

(** An attribute of the marker goes to the wrapper as a [data-] attribute:
    a key other than class, id, template and region, with a value that is not
    empty, gives the attribute [data-] and the key with that value, whatever
    the name of the marker and its other attributes. *)
Theorem attribute_becomes_data_attribute (tok : Token.t) (kind : string)
        (name : option string) (attrs : JsObject.obj) (k v : string) :
  NoDup (map fst attrs) ->
  JsObject.get attrs k = Some v ->
  truthy v = true ->
  reserved k = false ->
  attrGet (Attrs.attachDataAttrs tok kind name attrs) ("data-" ++ k)%string
  = Some v.
Proof.
  intros Hnd Hg Hv Hr. unfold Attrs.attachDataAttrs.
  apply data_loop_get; try assumption.
  - apply (Permutation_NoDup
             (Permutation_map fst (Permutation_sym (entries_permutation attrs)))).
    exact Hnd.
  - apply (Permutation_in _ (Permutation_sym (entries_permutation attrs))).
    now apply get_in.
Qed.

Lemma attribute_becomes_data_attribute_witness :
  attrGet (Attrs.attachDataAttrs (Token.new "layout_spread_open" "div" 1)
                                 "spread" (Some "s")
                                 [("template", "t"); ("spread", "x")])
          "data-spread"
  = Some "x".
Proof.
  exact (attribute_becomes_data_attribute
           (Token.new "layout_spread_open" "div" 1) "spread" (Some "s")
           [("template", "t"); ("spread", "x")] "spread" "x"
           ltac:(repeat constructor; simpl; intuition discriminate)
           eq_refl eq_refl eq_refl).
Defined.

Lemma attachDataAttrs_get_fixed (tok : Token.t) (kind : string)
      (name : option string) (attrs : JsObject.obj) (n : string) :
  (forall k, n <> ("data-" ++ k)%string \/ reserved k = true) ->
  attrGet (Attrs.attachDataAttrs tok kind name attrs) n
  = attrGet
      (Attrs.set_if
         (Attrs.set_if
            (Attrs.set_if
               match name with
               | Some x =>
                   if truthy x then
                     let t1 := if String.eqb kind "spread"
                               then Token.attrSet tok "data-spread" x
                               else tok in
                     let t2 := if String.eqb kind "page"
                               then Token.attrSet t1 "data-page" x
                               else t1 in
                     if String.eqb kind "section"
                     then Token.attrSet t2 "data-section" x else t2
                   else tok
               | None => tok
               end
               "data-template" (JsObject.get_truthy attrs "template"))
            "data-region" (JsObject.get_truthy attrs "region"))
         "id" (JsObject.get_truthy attrs "id")) n.
Proof.
  intro H. unfold Attrs.attachDataAttrs. cbv zeta.
  apply data_loop_get_other. intros k v _ E.
  destruct (H k) as [Hn|Hr]; [now elim Hn | now left].
Qed.

Lemma named_get_other (tok : Token.t) (kind : string)
      (name : option string) (n : string) :
  n <> "data-spread"%string -> n <> "data-page"%string ->
  n <> "data-section"%string ->
  attrGet
    match name with
    | Some x =>
        if truthy x then
          let t1 := if String.eqb kind "spread"
                    then Token.attrSet tok "data-spread" x else tok in
          let t2 := if String.eqb kind "page"
                    then Token.attrSet t1 "data-page" x else t1 in
          if String.eqb kind "section"
          then Token.attrSet t2 "data-section" x else t2
        else tok
    | None => tok
    end n
  = attrGet tok n.
Proof.
  intros H1 H2 H3. destruct name as [x|]; [|reflexivity].
  destruct (truthy x); [|reflexivity]. cbv zeta.
  destruct (String.eqb kind "spread"), (String.eqb kind "page"),
    (String.eqb kind "section");
    rewrite ?attrGet_set_other; auto.
Qed.

Lemma truthy_trim_start (ch : ascii) (s : string) :
  is_space ch = false -> truthy (trim (String ch s)) = true.
Proof. intro H. unfold trim. simpl. rewrite H. simpl. now rewrite H. Qed.

Lemma addClasses_class (tok : Token.t) (base extra : string) :
  Words.plain base = true ->
  attrGet (Attrs.addClasses tok base extra) "class"
  = Some (merged_class base extra).
Proof.
  intro Hb. unfold Attrs.addClasses, merged_class.
  rewrite (plain_truthy base Hb).
  destruct (truthy extra) eqn:E; simpl.
  - destruct base as [|ch base]; [discriminate Hb|].
    unfold Words.plain in Hb. simpl in Hb.
    apply andb_true_iff in Hb. destruct Hb as [Hc _].
    destruct (plain_char_inv ch Hc) as [Hs _].
    change (String ch base ++ String " " extra)%string
      with (String ch (base ++ String " " extra)%string).
    rewrite (truthy_trim_start ch _ Hs). apply attrGet_set_same.
  - rewrite (trim_plain base (plain_chars_of base Hb)).
    rewrite (plain_truthy base Hb). apply attrGet_set_same.
Qed.

(** The attributes of a wrapper that do not depend on the other keys: its
    class is the base class followed by the classes of the author, and its
    id, template and region are those of the marker, left out when empty or
    missing. *)
Theorem wrapper_fixed_attributes (type base kind : string) (meta : Meta) :
  Words.plain base = true ->
  let w := wrapper_open type base kind meta in
  attrGet w "class" = Some (merged_class base (class_of meta))
  /\ attrGet w "id" = JsObject.get_truthy (attrs meta) "id"
  /\ attrGet w "data-template" = JsObject.get_truthy (attrs meta) "template"
  /\ attrGet w "data-region" = JsObject.get_truthy (attrs meta) "region".
Proof.
  intros Hb w. unfold w, wrapper_open.
  set (t := Attrs.addClasses (Token.new type "div" 1) base (class_of meta)).
  assert (Hc : attrGet t "class" = Some (merged_class base (class_of meta)))
    by now apply addClasses_class.
  assert (Hnone : forall n, n <> "class"%string -> attrGet t n = None).
  { intros n Hn. unfold t, Attrs.addClasses.
    destruct (truthy (trim _)); [|reflexivity].
    rewrite attrGet_set_other; [reflexivity | congruence]. }
  repeat split.
  - rewrite attachDataAttrs_get_fixed; [|intro k; left; discriminate].
    do 3 (rewrite set_if_get_other; [|discriminate]).
    rewrite named_get_other; try discriminate. exact Hc.
  - rewrite attachDataAttrs_get_fixed; [|intro k; left; discriminate].
    rewrite set_if_get_same.
    do 2 (rewrite set_if_get_other; [|discriminate]).
    rewrite named_get_other; try discriminate.
    rewrite Hnone; [|discriminate].
    now destruct (JsObject.get_truthy (attrs meta) "id").
  - rewrite attachDataAttrs_get_fixed.
    + do 2 (rewrite set_if_get_other; [|discriminate]).
      rewrite set_if_get_same.
      rewrite named_get_other; try discriminate.
      rewrite Hnone; [|discriminate].
      now destruct (JsObject.get_truthy (attrs meta) "template").
    + intro k. destruct (String.eqb k "template") eqn:E.
      * right. apply String.eqb_eq in E. now subst.
      * left. intro H. apply data_name_inj with (k := "template"%string) in H.
        subst k. discriminate E.
  - rewrite attachDataAttrs_get_fixed.
    + rewrite set_if_get_other; [|discriminate].
      rewrite set_if_get_same.
      rewrite set_if_get_other; [|discriminate].
      rewrite named_get_other; try discriminate.
      rewrite Hnone; [|discriminate].
      now destruct (JsObject.get_truthy (attrs meta) "region").
    + intro k. destruct (String.eqb k "region") eqn:E.
      * right. apply String.eqb_eq in E. now subst.
      * left. intro H. apply data_name_inj with (k := "region"%string) in H.
        subst k. discriminate E.
Qed.

Lemma wrapper_fixed_attributes_witness :
  attrGet (wrapper_open "layout_section_open" "region" "section"
                        (mkMeta (Some "section") (Some "hero")
                                [("region", "left"); ("class", "hero")]
                                None))
          "class"
  = Some "region hero".
Proof.
  exact (proj1 (wrapper_fixed_attributes
                  "layout_section_open" "region" "section"
                  (mkMeta (Some "section") (Some "hero")
                          [("region", "left"); ("class", "hero")] None)
                  eq_refl)).
Defined.

(** The name of a marker goes to the wrapper as the [data-] attribute of its
    kind, unless the marker has an attribute called as the kind with a value
    that is not empty (which then takes its place, by the theorem on the
    other attributes). *)
Theorem name_becomes_data_attribute (tok : Token.t) (kind n : string)
        (attrs : JsObject.obj) :
  In kind ["spread"; "page"; "section"] ->
  truthy n = true ->
  NoDup (map fst attrs) ->
  JsObject.get_truthy attrs kind = None ->
  attrGet (Attrs.attachDataAttrs tok kind (Some n) attrs)
          ("data-" ++ kind)%string
  = Some n.
Proof.
  intros Hk Hn Hnd Hg. unfold Attrs.attachDataAttrs. cbv zeta.
  rewrite data_loop_get_other.
  - rewrite Hn. simpl in Hk.
    destruct Hk as [<-|[<-|[<-|[]]]]; cbn [String.eqb Ascii.eqb Bool.eqb];
      cbv iota;
      do 3 (rewrite set_if_get_other; [|discriminate]);
      apply attrGet_set_same.
  - intros k v Hin E. apply data_name_inj in E. subst k. right.
    apply (Permutation_in _ (entries_permutation attrs)) in Hin.
    apply (in_get attrs kind v Hnd) in Hin.
    unfold JsObject.get_truthy in Hg. rewrite Hin in Hg.
    destruct v; [reflexivity | discriminate Hg].
Qed.

Lemma name_becomes_data_attribute_witness :
  attrGet (Attrs.attachDataAttrs (Token.new "layout_page_open" "div" 1)
                                 "page" (Some "left")
                                 [("template", "t"); ("page", "")])
          "data-page"
  = Some "left".
Proof.
  exact (name_becomes_data_attribute
           (Token.new "layout_page_open" "div" 1) "page" "left"
           [("template", "t"); ("page", "")]
           (or_intror (or_introl eq_refl)) eq_refl
           ltac:(repeat constructor; simpl; intuition discriminate)
           eq_refl).
Defined.

End PassedAttributes.

(** * Further properties of the block rule *)

Section BlockRule.

Lemma parse_never_raises (line : string) :
  exists r, parseMarkerLine line = Normal r.
Proof.
  unfold parseMarkerLine.
  destruct (startsWith (trim line) "@") eqn:Hat; cbn [negb];
    [|now exists None].
  destruct (startsWith_inv _ _ Hat) as [rest Hr]. rewrite Hr.
  pose proof (tokenize_at rest) as Hne.
  destruct (tokenize (String "@" rest)) as [|head more]; [now elim Hne|].
  cbv zeta. destruct (negb (is_kind (slice_from 1 head))); [now exists None|].
  destruct (String.eqb (slice_from 1 head) "break"); [now eexists|].
  destruct more as [|t more]; [now eexists|].
  destruct (is_name_token t); now eexists.
Qed.

(** The block rule never raises; in validation mode it leaves the state as
    it was, and it gives the same answer in both modes.  A line it claims
    adds one marker token carrying the parsed marker and the 1-based line,
    raises the flag the core rule waits for, moves the line cursor past the
    line, and touches neither the earlier tokens nor the diagnostics. *)
Theorem markerBlock_claims_or_declines (state : Block.State)
        (startLine endLine : nat) (silent : bool) :
  exists (claimed : bool) (state' : Block.State),
    Block.markerBlock state startLine endLine silent
    = Normal (claimed, state')
    /\ Block.markerBlock state startLine endLine true
       = Normal (claimed, state)
    /\ (claimed = false \/ silent = true -> state' = state)
    /\ (claimed = true -> silent = false ->
        exists parsed,
          parseMarkerLine (Block.line_text state startLine)
          = Normal (Some parsed)
          /\ Block.tokens state'
             = Block.tokens state ++ [Block.marker_token parsed startLine]
          /\ __layoutMarkersUsed (Block.env state') = true
          /\ layoutWarnings (Block.env state')
             = layoutWarnings (Block.env state)
          /\ Block.line state' = Z.of_nat startLine + 1).
Proof.
  unfold Block.markerBlock.
  destruct (parse_never_raises (Block.line_text state startLine)) as (r & Hr).
  rewrite Hr. destruct r as [parsed|].
  - destruct silent.
    + exists true, state. repeat split; try reflexivity.
      intros _ H. discriminate H.
    + eexists true, _. split; [reflexivity|]. split; [reflexivity|].
      split.
      * intros [H|H]; discriminate H.
      * intros _ _. exists parsed. repeat split.
  - exists false, state. repeat split; try reflexivity.
    intro H. discriminate H.
Qed.

Lemma markerBlock_claims_or_declines_witness :
  exists (claimed : bool) (state' : Block.State),
    Block.markerBlock
      (Block.mkState "@page p" [0] [0] [7] (mkEnv false None) [] 0)
      0 1 false
    = Normal (claimed, state')
    /\ Block.tokens state'
       = [Block.marker_token (mkMeta (Some "page") (Some "p") [] None) 0].
Proof.
  destruct (markerBlock_claims_or_declines
              (Block.mkState "@page p" [0] [0] [7] (mkEnv false None) [] 0)
              0 1 false)
    as (claimed & state' & H & _).
  exists claimed, state'. split; [exact H|].
  injection H as _ <-. reflexivity.
Defined.

End BlockRule.

(** * What each marker adds to the output *)

Section Added.

Import Output.

Lemma on_page_out (options : Options) (sc : Scope) (meta : Meta) :
  out (on_page options sc meta)
  = out sc ++ page_cascade sc
        ++ [wrapper_open "layout_page_open" "page" "page" meta].
Proof.
  unfold on_page. rewrite openPage_out.
  destruct sc as [o so po xo st sw e0].
  destruct po, xo; cbn; rewrite <- ?app_assoc; reflexivity.
Qed.

Lemma on_spread_out (sc : Scope) (meta : Meta) :
  out (on_spread sc meta)
  = out sc ++ spread_cascade sc
        ++ [wrapper_open "layout_spread_open" "spread" "spread" meta].
Proof.
  destruct sc as [o so po xo st sw e0].
  destruct so, po, xo; cbn -[wrapper_open]; rewrite <- ?app_assoc;
    reflexivity.
Qed.

Lemma on_section_out (options : Options) (sc : Scope) (meta : Meta) :
  out (on_section options sc meta)
  = out sc ++ section_lead options sc (line_of meta)
        ++ [wrapper_open "layout_section_open" "region" "section" meta].
Proof.
  destruct sc as [o so po xo st sw e0], options as [ip pp wb].
  destruct so, po, xo, st, ip, pp; cbn -[wrapper_open];
    rewrite <- ?app_assoc; reflexivity.
Qed.

Lemma at_eof_out (sc : Scope) : out (at_eof sc) = out sc ++ spread_cascade sc.
Proof.
  destruct sc as [o so po xo st sw e0].
  destruct so, po, xo, sw; cbn; rewrite <- ?app_assoc, ?app_nil_r;
    reflexivity.
Qed.



Lemma created_app (type : string) (l1 l2 : list Token.t) :
  created type (l1 ++ l2) = (created type l1 + created type l2)%nat.
Proof. unfold created. now rewrite filter_app, length_app. Qed.

Lemma created_wrapper (type type' base kind : string) (meta : Meta) :
  created type [wrapper_open type' base kind meta]
  = if String.eqb type' type then 1%nat else 0%nat.
Proof.
  unfold created. simpl. rewrite wrapper_open_type.
  now destruct (String.eqb type' type).
Qed.

Lemma foreign_type (tok : Token.t) (type : string) :
  In type inserted_types -> foreign tok = true ->
  String.eqb (Token.type tok) type = false.
Proof.
  unfold foreign, inserted. intros Hin H. apply negb_true_iff in H.
  destruct (String.eqb (Token.type tok) type) eqn:E; [|reflexivity].
  rewrite <- H. symmetry. apply existsb_exists. now exists type.
Qed.

Lemma created_content (type : string) (tok : Token.t) :
  In type inserted_types -> foreign tok = true -> created type [tok] = 0%nat.
Proof.
  intros Hin H. unfold created. simpl. now rewrite (foreign_type tok type).
Qed.

Lemma answers_inserted (type k : string) :
  In (type, k) answers -> In type inserted_types.
Proof.
  simpl. intros [[= <- <-]|[[= <- <-]|[[= <- <-]|[]]]]; simpl; tauto.
Qed.

Ltac answer_cases H :=
  simpl in H; destruct H as [[= <- <-]|[[= <- <-]|[[= <- <-]|[]]]].

Lemma created_cascades (type k : string) (sc : Scope) :
  In (type, k) answers ->
  created type (spread_cascade sc) = 0%nat
  /\ created type (page_cascade sc) = 0%nat
  /\ created type (Wrappers.nearest_close sc) = 0%nat.
Proof.
  intro H. destruct sc as [o so po xo st sw e0].
  answer_cases H; destruct so, po, xo; repeat split.
Qed.

Lemma created_section_lead (type k : string) (options : Options)
      (sc : Scope) (line : Z) :
  In (type, k) answers ->
  created type (section_lead options sc line) = 0%nat.
Proof.
  intro H. unfold section_lead. rewrite created_app.
  destruct (negb (pageOpen sc) && implicitPage options).
  - rewrite created_wrapper.
    answer_cases H; now destruct (sectionOpen sc).
  - answer_cases H; now destruct (sectionOpen sc).
Qed.

Lemma is_marker_of_content (k : string) (tok : Token.t) :
  is_content tok = true -> is_marker_of k tok = false.
Proof.
  unfold is_content, is_marker_of. intro H. apply negb_true_iff in H.
  now rewrite H.
Qed.

(** One step of the loop adds one token of the type that answers the kind
    of the marker, and none of the other answering types. *)
Lemma visit_created (options : Options) (sc : Scope) (tok : Token.t)
      (type k : string) :
  In (type, k) answers ->
  foreign tok = true ->
  created type (out (visit options sc tok))
  = (created type (out sc) + if is_marker_of k tok then 1 else 0)%nat.
Proof.
  intros Ha Hf. pose proof (answers_inserted type k Ha) as Hin.
  destruct (is_content tok) eqn:Ec.
  - rewrite (visit_content options sc tok Ec).
    rewrite (is_marker_of_content k tok Ec). unfold push_out. simpl.
    now rewrite created_app, (created_content type tok Hin Hf).
  - unfold is_content in Ec. apply negb_false_iff in Ec.
    unfold visit, is_marker_of. rewrite Ec. cbn [negb andb].
    destruct (Token.meta tok) as [m|]; cbn [kind empty_meta];
      [|now rewrite Nat.add_0_r].
    destruct (kind m) as [k'|]; [|now rewrite Nat.add_0_r].
    destruct (created_cascades type k sc Ha) as (Cs & Cp & Cn).
    destruct (String.eqb k' "spread") eqn:E1.
    { apply String.eqb_eq in E1. subst k'.
      rewrite on_spread_out, !created_app, Cs, created_wrapper.
      answer_cases Ha; reflexivity. }
    destruct (String.eqb k' "page") eqn:E2.
    { apply String.eqb_eq in E2. subst k'.
      rewrite on_page_out, !created_app, Cp, created_wrapper.
      answer_cases Ha; reflexivity. }
    destruct (String.eqb k' "section") eqn:E3.
    { apply String.eqb_eq in E3. subst k'.
      rewrite on_section_out, !created_app,
        (created_section_lead type k options sc _ Ha), created_wrapper.
      answer_cases Ha; reflexivity. }
    destruct (String.eqb k' "break") eqn:E4.
    { apply String.eqb_eq in E4. subst k'.
      rewrite on_break_out, !created_app, Cn.
      answer_cases Ha; reflexivity. }
    answer_cases Ha; rewrite ?E1, ?E3, ?E4; now rewrite Nat.add_0_r.
Qed.

Lemma loop_created (options : Options) (type k : string)
      (toks : list Token.t) :
  In (type, k) answers ->
  forallb foreign toks = true ->
  forall sc,
    created type (out (fold_left (visit options) toks sc))
    = (created type (out sc) + marked k toks)%nat.
Proof.
  intros Ha. induction toks as [|tok toks IH]; intros H sc; simpl.
  - unfold marked. simpl. now rewrite Nat.add_0_r.
  - simpl in H. apply andb_true_iff in H. destruct H as [Ht Hr].
    rewrite (IH Hr), (visit_created options sc tok type k Ha Ht).
    unfold marked. simpl. destruct (is_marker_of k tok); simpl; lia.
Qed.

(** Every marker is answered once: the output holds as many break tokens as
    the input has [@break] markers, as many spread open tokens as it has
    [@spread] markers and as many section open tokens as it has [@section]
    markers, for tokens that bear none of the created types. *)
Theorem every_marker_is_answered_once (options : Options)
        (toks : list Token.t) (e : Env) (type k : string) :
  In (type, k) answers ->
  __layoutMarkersUsed e = true ->
  forallb foreign toks = true ->
  created type (tokens (layout_transform options (mkCore toks e)))
  = marked k toks.
Proof.
  intros Ha Hu H. unfold layout_transform. simpl. rewrite Hu. simpl.
  rewrite at_eof_out, created_app.
  destruct (created_cascades type k
              (fold_left (visit options) toks (initial_scope e)) Ha)
    as (Cs & _ & _).
  rewrite Cs, (loop_created options type k toks Ha H). simpl.
  unfold created. simpl. lia.
Qed.

Lemma every_marker_is_answered_once_witness :
  created "layout_break"
          (tokens (layout_transform default_options
                                    (mkCore ScenarioD.input
                                            Sample.fresh_env)))
  = marked "break" ScenarioD.input.
Proof.
  exact (every_marker_is_answered_once
           default_options ScenarioD.input Sample.fresh_env
           "layout_break" "break" (or_introl eq_refl) eq_refl eq_refl).
Defined.

Lemma implicit_push (e : Env) (d : Diag.t) :
  implicit_pages (diagnostics_of (push_warning e d))
  = (implicit_pages (diagnostics_of e)
     + if String.eqb (Diag.type d) "implicit_page" then 1 else 0)%nat.
Proof.
  unfold implicit_pages, diagnostics_of, push_warning. simpl.
  rewrite filter_app, length_app. simpl.
  now destruct (String.eqb (Diag.type d) "implicit_page").
Qed.

Ltac implicit_count :=
  cbn -[wrapper_open push_warning implicit_pages diagnostics_of];
  unfold warn; rewrite ?implicit_push; simpl; rewrite ?Nat.add_0_r;
  reflexivity.

Lemma on_spread_implicit (sc : Scope) (meta : Meta) :
  implicit_pages (diagnostics_of (env (on_spread sc meta)))
  = implicit_pages (diagnostics_of (env sc)).
Proof.
  destruct sc as [o so po xo st sw e0].
  destruct so, po, xo; implicit_count.
Qed.

Lemma on_page_implicit (options : Options) (sc : Scope) (meta : Meta) :
  implicit_pages (diagnostics_of (env (on_page options sc meta)))
  = implicit_pages (diagnostics_of (env sc)).
Proof.
  destruct sc as [o so po xo st sw e0], options as [ip pp wb].
  destruct so, po, xo, pp; implicit_count.
Qed.

Lemma on_break_implicit (options : Options) (sc : Scope) (meta : Meta) :
  implicit_pages (diagnostics_of (env (on_break options sc meta)))
  = implicit_pages (diagnostics_of (env sc)).
Proof.
  destruct sc as [o so po xo st sw e0], options as [ip pp wb].
  destruct so, po, xo, wb; implicit_count.
Qed.

Lemma at_eof_implicit (sc : Scope) :
  implicit_pages (diagnostics_of (env (at_eof sc)))
  = implicit_pages (diagnostics_of (env sc)).
Proof.
  destruct sc as [o so po xo st sw e0].
  destruct so, po, xo, sw; implicit_count.
Qed.

Lemma on_section_implicit_count (options : Options) (sc : Scope)
      (meta : Meta) :
  implicit_pages (diagnostics_of (env (on_section options sc meta)))
  = (implicit_pages (diagnostics_of (env sc))
     + if negb (pageOpen sc) && implicitPage options then 1 else 0)%nat.
Proof.
  destruct sc as [o so po xo st sw e0], options as [ip pp wb].
  destruct so, po, xo, st, ip, pp; implicit_count.
Qed.

Lemma page_open_cascades (sc : Scope) :
  created "layout_page_open" (spread_cascade sc) = 0%nat
  /\ created "layout_page_open" (page_cascade sc) = 0%nat
  /\ created "layout_page_open" (Wrappers.nearest_close sc) = 0%nat.
Proof.
  destruct sc as [o so po xo st sw e0]. destruct so, po, xo; repeat split.
Qed.

Lemma page_open_section_lead (options : Options) (sc : Scope) (line : Z) :
  created "layout_page_open" (section_lead options sc line)
  = if negb (pageOpen sc) && implicitPage options then 1%nat else 0%nat.
Proof.
  unfold section_lead. rewrite created_app.
  destruct (negb (pageOpen sc) && implicitPage options).
  - rewrite created_wrapper. now destruct (sectionOpen sc).
  - now destruct (sectionOpen sc).
Qed.

Lemma visit_pages (options : Options) (sc : Scope) (tok : Token.t) :
  foreign tok = true ->
  (created "layout_page_open" (out (visit options sc tok))
   + implicit_pages (diagnostics_of (env sc)))%nat
  = (created "layout_page_open" (out sc)
     + (if is_marker_of "page" tok then 1 else 0)
     + implicit_pages (diagnostics_of (env (visit options sc tok))))%nat.
Proof.
  intro Hf.
  destruct (is_content tok) eqn:Ec.
  - rewrite (visit_content options sc tok Ec).
    rewrite (is_marker_of_content "page" tok Ec). unfold push_out. simpl.
    rewrite created_app, (created_content "layout_page_open" tok);
      [lia | simpl; tauto | exact Hf].
  - unfold is_content in Ec. apply negb_false_iff in Ec.
    unfold visit, is_marker_of. rewrite Ec. cbn [negb andb].
    destruct (Token.meta tok) as [m|]; cbn [kind empty_meta]; [|lia].
    destruct (kind m) as [k'|]; [|lia].
    destruct (page_open_cascades sc) as (Cs & Cp & Cn).
    destruct (String.eqb k' "spread") eqn:E1.
    { apply String.eqb_eq in E1. subst k'.
      rewrite on_spread_out, on_spread_implicit, !created_app, Cs,
        created_wrapper. simpl. lia. }
    destruct (String.eqb k' "page") eqn:E2.
    { apply String.eqb_eq in E2. subst k'.
      rewrite on_page_out, on_page_implicit, !created_app, Cp,
        created_wrapper. simpl. lia. }
    destruct (String.eqb k' "section") eqn:E3.
    { rewrite on_section_out, on_section_implicit_count, !created_app,
        page_open_section_lead, created_wrapper. simpl. lia. }
    destruct (String.eqb k' "break") eqn:E4; [|lia].
    rewrite on_break_out, on_break_implicit, !created_app, Cn.
    change (created "layout_page_open" [break_token]) with 0%nat. lia.
Qed.

Lemma loop_pages (options : Options) (toks : list Token.t) :
  forallb foreign toks = true ->
  forall sc,
    (created "layout_page_open" (out (fold_left (visit options) toks sc))
     + implicit_pages (diagnostics_of (env sc)))%nat
    = (created "layout_page_open" (out sc) + marked "page" toks
       + implicit_pages
           (diagnostics_of (env (fold_left (visit options) toks sc))))%nat.
Proof.
  induction toks as [|tok toks IH]; intros H sc; simpl.
  - unfold marked. simpl. lia.
  - simpl in H. apply andb_true_iff in H. destruct H as [Ht Hr].
    pose proof (IH Hr (visit options sc tok)) as H1.
    pose proof (visit_pages options sc tok Ht) as H2.
    unfold marked in *. simpl.
    destruct (is_marker_of "page" tok); simpl; lia.
Qed.

(** The page wrappers are the [@page] markers and the implicit pages, and
    the [implicit_page] diagnostics count the implicit pages: the page open
    tokens of the output are as many as the [@page] markers of the input and
    the [implicit_page] diagnostics the run recorded, taken together. *)
Theorem pages_are_markers_and_implicit_pages (options : Options)
        (toks : list Token.t) (e : Env) :
  __layoutMarkersUsed e = true ->
  forallb foreign toks = true ->
  let result := layout_transform options (mkCore toks e) in
  (created "layout_page_open" (tokens result)
   + implicit_pages (diagnostics_of e))%nat
  = (marked "page" toks
     + implicit_pages (diagnostics_of (core_env result)))%nat.
Proof.
  intros Hu H result. unfold result, layout_transform. simpl.
  rewrite Hu. simpl. rewrite at_eof_out, at_eof_implicit, created_app.
  destruct (page_open_cascades
              (fold_left (visit options) toks (initial_scope e)))
    as (Cs & _ & _).
  rewrite Cs.
  pose proof (loop_pages options toks H (initial_scope e)) as L.
  change (created "layout_page_open" (out (initial_scope e))) with 0%nat in L.
  change (env (initial_scope e)) with e in L. lia.
Qed.

Lemma pages_are_markers_and_implicit_pages_witness :
  (created "layout_page_open"
           (tokens (layout_transform
                      default_options
                      (mkCore (Sample.marker "@section a" 0
                                 ++ Sample.marker "@page p" 1)
                              Sample.fresh_env)))
   + implicit_pages (diagnostics_of Sample.fresh_env))%nat
  = (marked "page" (Sample.marker "@section a" 0
                      ++ Sample.marker "@page p" 1)
     + implicit_pages
         (diagnostics_of
            (core_env (layout_transform
                         default_options
                         (mkCore (Sample.marker "@section a" 0
                                    ++ Sample.marker "@page p" 1)
                                 Sample.fresh_env)))))%nat.
Proof.
  exact (pages_are_markers_and_implicit_pages
           default_options
           (Sample.marker "@section a" 0 ++ Sample.marker "@page p" 1)
           Sample.fresh_env eq_refl eq_refl).
Defined.

End Added.
